(** * oplog-emitter: a shallow embedding of [lib/index.js]

    The library turns the MongoDB oplog into the signals [op], [insert],
    [update], [delete] and [error] of an event emitter.  This file embeds
    the functions of [lib/index.js] as Rocq functions over a small model of
    JavaScript values and proves the properties its specification states.

    Layout: JavaScript values and exceptions; the regular-expression
    fragment behind [String.prototype.match]; [validateArgs];
    [routeEvent]; the tailing stage; [connectToMongo] and
    [getOplogCollection]; the promise chain of the constructor; the
    vocabulary of the properties; then the lemmas and theorems.

    The collaborators of the library (the MongoDB driver, the poller, the
    logger, the listeners of the emitter) are not part of it: their
    behaviour during a run is an input of the model, and what the library
    does to them is recorded as a list of effects. *)

From Stdlib Require Import ZArith String Ascii List Bool Floats Lia DecimalString.
From stdpp Require Import gmap strings.

Open Scope string_scope.

(** ** JavaScript values *)

Module Js.

(** The error constructors the library and the engine use. *)
Inductive ErrorName := Error | TypeError | SyntaxError.

(** Function objects are compared by reference; a reference names the
    function.  [Fn_getLastTimestamp] is the module-level function
    [getLastTimestamp] (index.js:241), [Fn_bunyanTrace] the arrow function
    built at index.js:174, [Fn_user n] a function supplied by the caller. *)
Inductive FunctionRef :=
| Fn_getLastTimestamp
| Fn_bunyanTrace
| Fn_user (id : nat).

(** Faults raised by the engine itself; the message text of such an error
    depends on the engine and is not modelled. *)
Inductive NativeFault :=
| ReadPropertyOf (prop : string) (base_is_null : bool)
| NotAFunction (expr : string)
| InvalidRegExp (source : string).

(** Numbers are IEEE 754 doubles.  A string is a sequence of 8-bit code
    units, which covers namespaces and patterns over ASCII.  [JsObject] is
    a plain object (a map of options, a document read from the cursor);
    arrays, errors and [mongodb.Timestamp] instances are objects of their
    own class. *)
#[warnings="-register-all"]
Inductive JsValue : Type :=
| JsUndefined
| JsNull
| JsBoolean (b : bool)
| JsNumber (x : float)
| JsString (s : string)
| JsFunction (f : FunctionRef)
| JsTimestamp (low high : Z)
| JsError (name : ErrorName) (message : string)
| JsNativeError (name : ErrorName) (fault : NativeFault)
| JsArray (elems : list JsValue)
| JsObject (props : gmap string JsValue).

(** [typeof v] *)
Definition typeof (v : JsValue) : string :=
  match v with
  | JsUndefined => "undefined"
  | JsNull => "object"
  | JsBoolean _ => "boolean"
  | JsNumber _ => "number"
  | JsString _ => "string"
  | JsFunction _ => "function"
  | JsTimestamp _ _ | JsError _ _ | JsNativeError _ _
  | JsArray _ | JsObject _ => "object"
  end.

(** [v === undefined] *)
Definition is_undefined (v : JsValue) : bool :=
  match v with JsUndefined => true | _ => false end.

(** ToBoolean: [undefined], [null], [false], [0], [NaN] and [''] are
    falsy, every other value is truthy. *)
Definition truthy (v : JsValue) : bool :=
  match v with
  | JsUndefined | JsNull => false
  | JsBoolean b => b
  | JsNumber x => negb (PrimFloat.is_zero x || PrimFloat.is_nan x)
  | JsString s => negb (String.eqb s "")
  | _ => true
  end.

(** [v instanceof Timestamp] *)
Definition instanceof_Timestamp (v : JsValue) : bool :=
  match v with JsTimestamp _ _ => true | _ => false end.

(** [Array.isArray v] *)
Definition isArray (v : JsValue) : bool :=
  match v with JsArray _ => true | _ => false end.

(** Reading property [k] of a plain object: an absent property reads as
    [undefined]. *)
Definition prop (props : gmap string JsValue) (k : string) : JsValue :=
  default JsUndefined (props !! k).

(** [v.k] for a [v] that is neither [undefined] nor [null], [k] being one
    of the names this library reads ([oplogURL], [username], [ns], [op],
    ...): a plain object yields its property; a primitive, an array, an
    error or a timestamp has no property of such a name. *)
Definition member (v : JsValue) (k : string) : JsValue :=
  match v with
  | JsObject o => prop o k
  | _ => JsUndefined
  end.

(** A computation either returns or throws a JavaScript value. *)
Inductive Outcome (A : Type) : Type :=
| Return (a : A)
| Throw (exn : JsValue).
Arguments Return {A} a.
Arguments Throw {A} exn.

(** Sequencing: an exception skips the rest. *)
Definition bind {A B} (m : Outcome A) (k : A -> Outcome B) : Outcome B :=
  match m with
  | Return a => k a
  | Throw e => Throw e
  end.

(** [v.k] for any [v]: reading a property of [undefined] or [null] makes
    the engine throw a [TypeError]. *)
Definition get_prop (v : JsValue) (k : string) : Outcome JsValue :=
  match v with
  | JsUndefined => Throw (JsNativeError TypeError (ReadPropertyOf k false))
  | JsNull => Throw (JsNativeError TypeError (ReadPropertyOf k true))
  | _ => Return (member v k)
  end.

(** [if (c) throw e], followed by the rest of the function. *)
Definition throw_if {A} (c : bool) (e : JsValue) (k : Outcome A) : Outcome A :=
  if c then Throw e else k.

End Js.

Import Js.

Notation "x <- m ;; k" := (bind m (fun x => k))
  (at level 100, m at next level, right associativity).
Notation "'throw_when' c 'then' e ;; k" := (throw_if c e k)
  (at level 100, c at next level, e at next level, right associativity).

(** ** Regular expressions: the fragment behind [String.prototype.match]

    [ns.match(pattern)] with a string [pattern] builds [new RegExp(pattern)]
    (no flags) and searches [ns] for the first match.  The fragment
    modelled here: alternation, concatenation, groups, the quantifiers
    [*], [+], [?] (greedy or lazy), [.], the anchors [^] and [$], character
    classes, class escapes and identity escapes.  Braced quantifiers,
    backreferences, lookaround, word boundaries and the [\c], [\x], [\u]
    escapes are recognised and reported as outside the fragment. *)

Module RegExp.

Local Open Scope char_scope.
Local Open Scope list_scope.

(** A member of a character class. *)
Inductive ClassAtom :=
| Lit (c : ascii)
| Range (lo hi : ascii)
| Digit (negated : bool)
| Word (negated : bool)
| Space (negated : bool).

(** Abstract syntax.  [r+] is kept as [Seq r (Star r)] and [r?] as
    [Alt r Empty]; capture groups only group, since nothing refers back to
    them; a lazy quantifier accepts the same subjects as the greedy one. *)
Inductive Regex :=
| Empty
| Chr (c : ascii)
| Dot
| Class (negated : bool) (items : list ClassAtom)
| Bol
| Eol
| Seq (r1 r2 : Regex)
| Alt (r1 r2 : Regex)
| Star (r : Regex).

Definition between (lo hi c : ascii) : bool :=
  (nat_of_ascii lo <=? nat_of_ascii c)%nat && (nat_of_ascii c <=? nat_of_ascii hi)%nat.

Definition is_digit (c : ascii) : bool := between "0" "9" c.

Definition is_word (c : ascii) : bool :=
  between "a" "z" c || between "A" "Z" c || is_digit c || Ascii.eqb c "_".

(** White space and line terminators among the code units below 256. *)
Definition is_space (c : ascii) : bool :=
  between (ascii_of_nat 9) (ascii_of_nat 13) c
  || Ascii.eqb c " " || Ascii.eqb c (ascii_of_nat 160).

Definition is_line_terminator (c : ascii) : bool :=
  Ascii.eqb c (ascii_of_nat 10) || Ascii.eqb c (ascii_of_nat 13).

Definition class_atom_matches (a : ClassAtom) (c : ascii) : bool :=
  match a with
  | Lit x => Ascii.eqb x c
  | Range lo hi => between lo hi c
  | Digit neg => xorb neg (is_digit c)
  | Word neg => xorb neg (is_word c)
  | Space neg => xorb neg (is_space c)
  end.

(** The matcher is written in continuation-passing style, as in the
    language definition: a matcher takes the offset [i] in the subject, the
    rest [s] of the subject from [i] on, and a continuation [k] that
    receives the offset and the rest after the match. *)
Definition Continuation : Type := nat -> list ascii -> bool.
Definition Matcher : Type := nat -> list ascii -> Continuation -> bool.

(** Greedy repetition of [body], at most [n] more times: an iteration
    that consumes nothing is rejected. *)
Fixpoint repeat_matcher (body : Matcher) (k : Continuation) (n : nat)
    (i : nat) (s : list ascii) : bool :=
  k i s ||
  match n with
  | O => false
  | S n' =>
      body i s (fun j t => (length t <? length s)%nat && repeat_matcher body k n' j t)
  end.

(** [m r] is the matcher of [r].  Every iteration of [Star] consumes a
    character, so [length s] iterations suffice. *)
Fixpoint m (r : Regex) (i : nat) (s : list ascii) (k : Continuation) : bool :=
  match r with
  | Empty => k i s
  | Chr c =>
      match s with
      | x :: s' => Ascii.eqb c x && k (S i) s'
      | [] => false
      end
  | Dot =>
      match s with
      | x :: s' => negb (is_line_terminator x) && k (S i) s'
      | [] => false
      end
  | Class neg items =>
      match s with
      | x :: s' =>
          xorb neg (existsb (fun a => class_atom_matches a x) items) && k (S i) s'
      | [] => false
      end
  | Bol => (i =? 0)%nat && k i s
  | Eol => match s with [] => k i s | _ :: _ => false end
  | Seq r1 r2 => m r1 i s (fun j t => m r2 j t k)
  | Alt r1 r2 => m r1 i s k || m r2 i s k
  | Star r1 => repeat_matcher (m r1) k (length s) i s
  end.

(** A match of [r] starting at offset [i] of [s]. *)
Definition match_at (r : Regex) (s : list ascii) (i : nat) : bool :=
  m r i (skipn i s) (fun _ _ => true).

(** The search of [RegExpBuiltinExec]: try every offset from 0 to the
    length of the subject. *)
Definition search (r : Regex) (s : list ascii) : bool :=
  existsb (match_at r s) (seq 0 (S (length s))).

(** *** Parsing a pattern *)

Inductive Parsed (A : Type) : Type :=
| Ok (a : A) (rest : list ascii)
| Bad
| Beyond.
Arguments Ok {A} a rest.
Arguments Bad {A}.
Arguments Beyond {A}.

Definition is_quantifier (c : ascii) : bool :=
  Ascii.eqb c "*" || Ascii.eqb c "+" || Ascii.eqb c "?".

(** The [?] that makes a quantifier lazy. *)
Definition skip_lazy (s : list ascii) : list ascii :=
  match s with
  | c :: rest => if Ascii.eqb c "?" then rest else s
  | [] => s
  end.

(** An optional quantifier after the atom [r]. *)
Definition parse_quantifier (r : Regex) (s : list ascii) : Regex * list ascii :=
  match s with
  | c :: rest =>
      if Ascii.eqb c "*" then (Star r, skip_lazy rest)
      else if Ascii.eqb c "+" then (Seq r (Star r), skip_lazy rest)
      else if Ascii.eqb c "?" then (Alt r Empty, skip_lazy rest)
      else (r, s)
  | [] => (r, s)
  end.

(** The character after a backslash, outside a class. *)
Definition parse_escape (c : ascii) : option Regex :=
  if Ascii.eqb c "d" then Some (Class false [Digit false])
  else if Ascii.eqb c "D" then Some (Class false [Digit true])
  else if Ascii.eqb c "w" then Some (Class false [Word false])
  else if Ascii.eqb c "W" then Some (Class false [Word true])
  else if Ascii.eqb c "s" then Some (Class false [Space false])
  else if Ascii.eqb c "S" then Some (Class false [Space true])
  else if Ascii.eqb c "t" then Some (Chr (ascii_of_nat 9))
  else if Ascii.eqb c "n" then Some (Chr (ascii_of_nat 10))
  else if Ascii.eqb c "v" then Some (Chr (ascii_of_nat 11))
  else if Ascii.eqb c "f" then Some (Chr (ascii_of_nat 12))
  else if Ascii.eqb c "r" then Some (Chr (ascii_of_nat 13))
  else if is_digit c || Ascii.eqb c "b" || Ascii.eqb c "B" || Ascii.eqb c "c"
          || Ascii.eqb c "x" || Ascii.eqb c "u" || Ascii.eqb c "k"
          || Ascii.eqb c "p" || Ascii.eqb c "P" then None
  else Some (Chr c).

(** The character after a backslash, inside a class. *)
Definition parse_class_escape (c : ascii) : option ClassAtom :=
  if Ascii.eqb c "d" then Some (Digit false)
  else if Ascii.eqb c "D" then Some (Digit true)
  else if Ascii.eqb c "w" then Some (Word false)
  else if Ascii.eqb c "W" then Some (Word true)
  else if Ascii.eqb c "s" then Some (Space false)
  else if Ascii.eqb c "S" then Some (Space true)
  else if Ascii.eqb c "t" then Some (Lit (ascii_of_nat 9))
  else if Ascii.eqb c "n" then Some (Lit (ascii_of_nat 10))
  else if Ascii.eqb c "v" then Some (Lit (ascii_of_nat 11))
  else if Ascii.eqb c "f" then Some (Lit (ascii_of_nat 12))
  else if Ascii.eqb c "r" then Some (Lit (ascii_of_nat 13))
  else if Ascii.eqb c "b" then Some (Lit (ascii_of_nat 8))
  else if is_digit c || Ascii.eqb c "c" || Ascii.eqb c "x" || Ascii.eqb c "u"
          || Ascii.eqb c "k" || Ascii.eqb c "p" || Ascii.eqb c "P" then None
  else Some (Lit c).

(** One member of a class: a character or an escape. *)
Definition parse_class_atom (s : list ascii) : Parsed ClassAtom :=
  match s with
  | [] => Bad
  | c :: rest =>
      if Ascii.eqb c "\" then
        match rest with
        | [] => Bad
        | e :: rest' =>
            match parse_class_escape e with
            | Some a => Ok a rest'
            | None => Beyond
            end
        end
      else Ok (Lit c) rest
  end.

(** The members of a class up to the closing bracket.  A range needs a
    single character on both sides, in order. *)
Fixpoint parse_class_items (n : nat) (s : list ascii) : Parsed (list ClassAtom) :=
  match n with
  | O => Beyond
  | S n' =>
      match s with
      | [] => Bad
      | c :: rest =>
          if Ascii.eqb c "]" then Ok [] rest else
          match parse_class_atom s with
          | Bad => Bad
          | Beyond => Beyond
          | Ok a rest1 =>
              match rest1 with
              | d :: (x :: _) as rest2 =>
                  if Ascii.eqb d "-" && negb (Ascii.eqb x "]") then
                    match parse_class_atom rest2 with
                    | Bad => Bad
                    | Beyond => Beyond
                    | Ok b rest3 =>
                        match a, b with
                        | Lit lo, Lit hi =>
                            if (nat_of_ascii lo <=? nat_of_ascii hi)%nat then
                              match parse_class_items n' rest3 with
                              | Ok items rest4 => Ok (Range lo hi :: items) rest4
                              | Bad => Bad
                              | Beyond => Beyond
                              end
                            else Bad
                        | _, _ => Beyond
                        end
                    end
                  else
                    match parse_class_items n' rest1 with
                    | Ok items rest4 => Ok (a :: items) rest4
                    | Bad => Bad
                    | Beyond => Beyond
                    end
              | _ =>
                  match parse_class_items n' rest1 with
                  | Ok items rest4 => Ok (a :: items) rest4
                  | Bad => Bad
                  | Beyond => Beyond
                  end
              end
          end
      end
  end.

(** A class, after its opening bracket. *)
Definition parse_class (s : list ascii) : Parsed Regex :=
  let (neg, body) :=
    match s with
    | c :: rest => if Ascii.eqb c "^" then (true, rest) else (false, s)
    | [] => (false, s)
    end in
  match parse_class_items (S (length body)) body with
  | Ok items rest => Ok (Class neg items) rest
  | Bad => Bad
  | Beyond => Beyond
  end.

(** Recursive descent on the pattern; [n] bounds the depth of the
    recursion.  [parse_disjunction] stops at the end of the pattern or in
    front of a closing parenthesis, [parse_alternative] also in front of a
    bar. *)
Fixpoint parse_disjunction (n : nat) (s : list ascii) : Parsed Regex :=
  match n with
  | O => Beyond
  | S n' =>
      match parse_alternative n' s with
      | Ok r1 (c :: rest) =>
          if Ascii.eqb c "|" then
            match parse_disjunction n' rest with
            | Ok r2 rest' => Ok (Alt r1 r2) rest'
            | Bad => Bad
            | Beyond => Beyond
            end
          else Ok r1 (c :: rest)
      | other => other
      end
  end
with parse_alternative (n : nat) (s : list ascii) : Parsed Regex :=
  match n with
  | O => Beyond
  | S n' =>
      match s with
      | [] => Ok Empty []
      | c :: rest =>
          if Ascii.eqb c "|" || Ascii.eqb c ")" then Ok Empty s
          else if Ascii.eqb c "^" then
            match parse_alternative n' rest with
            | Ok r rest' => Ok (Seq Bol r) rest'
            | Bad => Bad
            | Beyond => Beyond
            end
          else if Ascii.eqb c "$" then
            match parse_alternative n' rest with
            | Ok r rest' => Ok (Seq Eol r) rest'
            | Bad => Bad
            | Beyond => Beyond
            end
          else
            match parse_atom n' s with
            | Ok a rest1 =>
                let (t, rest2) := parse_quantifier a rest1 in
                match parse_alternative n' rest2 with
                | Ok r rest' => Ok (Seq t r) rest'
                | Bad => Bad
                | Beyond => Beyond
                end
            | Bad => Bad
            | Beyond => Beyond
            end
      end
  end
with parse_atom (n : nat) (s : list ascii) : Parsed Regex :=
  match n with
  | O => Beyond
  | S n' =>
      match s with
      | [] => Bad
      | c :: rest =>
          if Ascii.eqb c "(" then
            match rest with
            | q :: rest1 =>
                if Ascii.eqb q "?" then
                  match rest1 with
                  | x :: rest2 =>
                      if Ascii.eqb x ":" then parse_group n' rest2
                      else if Ascii.eqb x "=" || Ascii.eqb x "!" || Ascii.eqb x "<"
                      then Beyond else Bad
                  | [] => Bad
                  end
                else parse_group n' rest
            | [] => Bad
            end
          else if Ascii.eqb c "[" then parse_class rest
          else if Ascii.eqb c "\" then
            match rest with
            | [] => Bad
            | e :: rest' =>
                match parse_escape e with
                | Some r => Ok r rest'
                | None => Beyond
                end
            end
          else if Ascii.eqb c "." then Ok Dot rest
          else if is_quantifier c then Bad
          else if Ascii.eqb c "{" then Beyond
          else Ok (Chr c) rest
      end
  end
with parse_group (n : nat) (s : list ascii) : Parsed Regex :=
  match n with
  | O => Beyond
  | S n' =>
      match parse_disjunction n' s with
      | Ok r (c :: rest) => if Ascii.eqb c ")" then Ok r rest else Bad
      | Ok _ [] => Bad
      | Bad => Bad
      | Beyond => Beyond
      end
  end.

(** The outcome of [new RegExp(source)]. *)
Inductive Compiled :=
| Pattern (r : Regex)
| PatternSyntaxError
| PatternBeyond.

(** The descent goes through at most four calls per character. *)
Definition fuel (s : list ascii) : nat := 4 * length s + 4.

(** A closing parenthesis left over has no opening one. *)
Definition compile (source : string) : Compiled :=
  let s := list_ascii_of_string source in
  match parse_disjunction (fuel s) s with
  | Ok r [] => Pattern r
  | Ok _ (_ :: _) => PatternSyntaxError
  | Bad => PatternSyntaxError
  | Beyond => PatternBeyond
  end.

End RegExp.

Import RegExp.

(** [a !== b] on the strings [typeof] returns. *)
Definition str_neq (a b : string) : bool := negb (String.eqb a b).

(** ** Argument validation (index.js:146-182) *)

(** The messages of the [TypeError]s, as index.js spells them. *)
Definition msg_args := "argument should be a connectionstring or a map of options".
Definition msg_url_missing := "oplogURL must be specified".
Definition msg_url_type := "oplogURL must be a string".
Definition msg_getLastTimestamp :=
  "getLastTimestamp should be a function that returns a Promise to a Mongo Timestamp".
Definition msg_database := "database should be a string".
Definition msg_collection := "collection should be a string".
Definition msg_credentials := "credentials should be provided as an object".
Definition msg_username :=
  "credentials should have an attribute username that is a string".
Definition msg_password :=
  "credentials should have an attribute password that is a string".
Definition msg_retries := "retries should be a number".
Definition msg_log := "log should be a function that logs strings".
Definition msg_timestampTimeout := "timestampTimeout should be a number".

(** [x === undefined ? d : x] *)
Definition or_default (x d : JsValue) : JsValue :=
  if is_undefined x then d else x.

(** index.js:162-168 *)
Definition validateCredentials (credentials : JsValue) : Outcome unit :=
  if is_undefined credentials then Return tt else
  throw_when str_neq (typeof credentials) "object"
    then JsError TypeError msg_credentials ;;
  username <- get_prop credentials "username" ;;
  throw_when negb (truthy username) then JsError TypeError msg_username ;;
  throw_when str_neq (typeof username) "string" then JsError TypeError msg_username ;;
  password <- get_prop credentials "password" ;;
  throw_when negb (truthy password) then JsError TypeError msg_password ;;
  throw_when str_neq (typeof password) "string" then JsError TypeError msg_password ;;
  Return tt.

(** index.js:150-181 on the properties of the options object.  Each
    assignment [args.k = ...] updates the caller's object in place; the
    returned map is that object after the call. *)
Definition validateProps (args : gmap string JsValue) : Outcome (gmap string JsValue) :=
  throw_when is_undefined (prop args "oplogURL") then JsError TypeError msg_url_missing ;;
  throw_when str_neq (typeof (prop args "oplogURL")) "string"
    then JsError TypeError msg_url_type ;;
  let args := <["getLastTimestamp" :=
    or_default (prop args "getLastTimestamp") (JsFunction Fn_getLastTimestamp)]> args in
  throw_when str_neq (typeof (prop args "getLastTimestamp")) "function"
    then JsError TypeError msg_getLastTimestamp ;;
  let args := <["database" := or_default (prop args "database") (JsString ".*")]> args in
  throw_when str_neq (typeof (prop args "database")) "string"
    then JsError TypeError msg_database ;;
  let args := <["collection" := or_default (prop args "collection") (JsString ".*")]> args in
  throw_when str_neq (typeof (prop args "collection")) "string"
    then JsError TypeError msg_collection ;;
  _ <- validateCredentials (prop args "credentials") ;;
  let args := <["retries" := or_default (prop args "retries") (JsNumber 5%float)]> args in
  throw_when str_neq (typeof (prop args "retries")) "number"
    then JsError TypeError msg_retries ;;
  let args := <["log" := or_default (prop args "log") (JsFunction Fn_bunyanTrace)]> args in
  throw_when str_neq (typeof (prop args "log")) "function"
    then JsError TypeError msg_log ;;
  let args := <["timestampTimeout" :=
    or_default (prop args "timestampTimeout") (JsNumber 30000%float)]> args in
  throw_when str_neq (typeof (prop args "timestampTimeout")) "number"
    then JsError TypeError msg_timestampTimeout ;;
  Return args.

(** index.js:146-182.  After the two [typeof] tests [args] is [null] or an
    object.  Reading [args.oplogURL] throws on [null]; an array, an error
    or a timestamp has no property [oplogURL], so line 150 throws before
    any assignment. *)
Definition validateArgs (args : JsValue) : Outcome JsValue :=
  let args :=
    if String.eqb (typeof args) "string"
    then JsObject {[ "oplogURL" := args ]} else args in
  throw_when str_neq (typeof args) "object" then JsError TypeError msg_args ;;
  match args with
  | JsNull => Throw (JsNativeError TypeError (ReadPropertyOf "oplogURL" true))
  | JsObject props => props' <- validateProps props ;; Return (JsObject props')
  | _ => Throw (JsError TypeError msg_url_missing)
  end.


(** The options after validation, with the type each test of
    [validateArgs] establishes.  [credentials] stays a JavaScript value:
    it is [undefined] or the object the caller supplied. *)
Record OplogOptions := {
  oplogURL : string;
  getLastTimestamp : FunctionRef;
  database : string;
  collection : string;
  credentials : JsValue;
  retries : float;
  log : FunctionRef;
  timestampTimeout : float
}.

(** The typed view of an options object; [None] when a property has not
    the type validation establishes. *)
Definition options_of (args : gmap string JsValue) : option OplogOptions :=
  match prop args "oplogURL", prop args "getLastTimestamp", prop args "database",
        prop args "collection", prop args "retries", prop args "log",
        prop args "timestampTimeout" with
  | JsString url, JsFunction glt, JsString db, JsString coll,
    JsNumber r, JsFunction l, JsNumber t =>
      Some {| oplogURL := url; getLastTimestamp := glt; database := db;
              collection := coll; credentials := prop args "credentials";
              retries := r; log := l; timestampTimeout := t |}
  | _, _, _, _, _, _, _ => None
  end.

(** ** Routing one oplog document (index.js:121-135) *)

(** What the model says about a call: how the call ends, or [None] when
    the call leaves the model, which it does for a filter pattern outside
    the fragment of [RegExp] and for a namespace that is an object with a
    method [match] of its own. *)
Definition Modelled (A : Type) : Type := option (Outcome A).

(** [ns.match(pattern)], reduced to whether the result is an array
    ([true]) or [null] ([false]).  A pattern that does not parse makes
    [new RegExp] throw a [SyntaxError]; a namespace that is not a string
    has no method [match]. *)
Definition string_match (ns : JsValue) (pattern : string) : Modelled bool :=
  match ns with
  | JsString s =>
      match compile pattern with
      | Pattern r => Some (Return (search r (list_ascii_of_string s)))
      | PatternSyntaxError =>
          Some (Throw (JsNativeError SyntaxError (InvalidRegExp pattern)))
      | PatternBeyond => None
      end
  | JsUndefined => Some (Throw (JsNativeError TypeError (ReadPropertyOf "match" false)))
  | JsNull => Some (Throw (JsNativeError TypeError (ReadPropertyOf "match" true)))
  | JsObject o =>
      if String.eqb (typeof (prop o "match")) "function" then None
      else Some (Throw (JsNativeError TypeError (NotAFunction "oplogEvent.ns.match")))
  | _ => Some (Throw (JsNativeError TypeError (NotAFunction "oplogEvent.ns.match")))
  end.

(** The template literal of index.js:122: the two option strings around an
    escaped dot, nothing else escaped. *)
Definition namespace_pattern (args : OplogOptions) : string :=
  database args ++ "\." ++ collection args.

(** A signal is the first argument of [emitter.emit] with its payload.
    Listeners are observers: the model records what is emitted. *)
Definition Signal : Type := string * JsValue.

(** The [switch] of index.js:125-134, by strict equality with the three
    string literals. *)
Definition specialised (oplogEvent : JsValue) : list Signal :=
  match member oplogEvent "op" with
  | JsString op =>
      if String.eqb op "i" then [("insert", oplogEvent)]
      else if String.eqb op "d" then [("delete", oplogEvent)]
      else if String.eqb op "u" then [("update", oplogEvent)]
      else []
  | _ => []
  end.

(** [routeEvent(emitter, oplogEvent)]: the signals emitted on [emitter],
    in order.  Nothing is emitted before a point where the function can
    throw. *)
Definition routeEvent (args : OplogOptions) (oplogEvent : JsValue)
  : Modelled (list Signal) :=
  match get_prop oplogEvent "ns" with
  | Throw e => Some (Throw e)
  | Return ns =>
      match string_match ns (namespace_pattern args) with
      | None => None
      | Some (Throw e) => Some (Throw e)
      | Some (Return false) => Some (Return [])
      | Some (Return true) =>
          Some (Return (("op", oplogEvent) :: specialised oplogEvent))
      end
  end.

(** ** What the library does to its collaborators *)

(** The calls the library makes, in the order it makes them: [args.log],
    [this.emit], [new MongoClient], [db.collection], [oplog.find], and an
    exception that leaves a stream handler. *)
Inductive Effect :=
| Log (message : JsValue)
| Emit (signal : string) (payload : JsValue)
| NewMongoClient (url : string) (options : JsValue)
| Collection (name : string) (options : JsValue)
| Find (collection query options : JsValue)
| Uncaught (exn : JsValue).

(** [emitter.emit(signal, payload)] *)
Definition emit (s : Signal) : Effect := Emit (fst s) (snd s).

(** How a promise ends. *)
Inductive Settled :=
| Fulfilled (value : JsValue)
| Rejected (reason : JsValue)
| Pending.

(** ** The tailing stage (index.js:99-104) *)

(** What the stream of the cursor delivers to the two handlers. *)
Inductive StreamEvent :=
| Data (doc : JsValue)
| End.

Definition msg_cursor_closed := "Database cursor closed unexpectedly".

(** The ['end'] handler. *)
Definition on_end : list Effect :=
  [ Log (JsString "Tailable cursor was closed");
    Emit "error" (JsError Error msg_cursor_closed) ].

(** The handlers run on each event in turn.  An exception thrown by
    [routeEvent] leaves its handler uncaught and the stage stops. *)
Fixpoint tailing (args : OplogOptions) (events : list StreamEvent)
  : option (list Effect) :=
  match events with
  | [] => Some []
  | Data doc :: rest =>
      match routeEvent args doc with
      | None => None
      | Some (Throw e) => Some [Uncaught e]
      | Some (Return signals) =>
          match tailing args rest with
          | Some effects => Some (map emit signals ++ effects)%list
          | None => None
          end
      end
  | End :: rest =>
      match tailing args rest with
      | Some effects => Some (on_end ++ effects)%list
      | None => None
      end
  end.

(** ** Connecting (index.js:192-234) *)

(** [db.collection(name, options, callback)]: the driver calls back once
    with an error and a collection. *)
Definition Db : Type := string -> JsValue -> JsValue * JsValue.

Definition msg_no_oplog :=
  "Could not find oplog collection. Make sure mongodb is configured for replication".

(** [{strict: true}] *)
Definition strict : JsValue := JsObject {[ "strict" := JsBoolean true ]}.

(** [getOplogCollection(db, log)]: the calls made on [db] and [log], in
    order, and how the returned promise settles. *)
Definition getOplogCollection (db : Db) : list Effect * Settled :=
  let '(error, oplog) := db "oplog.rs" strict in
  if truthy error then
    let '(error2, mainOplog) := db "oplog.$main" strict in
    if truthy error2 then
      ([ Collection "oplog.rs" strict; Log error;
         Collection "oplog.$main" strict; Log error2 ],
       Rejected (JsError Error msg_no_oplog))
    else
      ([ Collection "oplog.rs" strict; Log error;
         Collection "oplog.$main" strict ],
       Fulfilled mainOplog)
  else ([ Collection "oplog.rs" strict ], Fulfilled oplog).

(** The options handed to [new MongoClient] (index.js:194-202). *)
Definition mongoOptions (credentials : JsValue) : JsValue :=
  if truthy credentials then
    JsObject {[ "auth" := JsObject {[ "user" := member credentials "username";
                                       "password" := member credentials "password" ]};
                "authSource" := JsString "adming" ]}
  else JsObject ∅.

(** How [client.connect()] ends: with a client, whose [db(name)] is a
    database handle, or with a failure. *)
Inductive Connect :=
| Connected (client : string -> Db)
| ConnectFailed (reason : JsValue)
| ConnectPending.

(** [connectToMongo(oplogURL, log, credentials)], one attempt of the
    connection poller. *)
Definition connectToMongo (oplogURL : string) (credentials : JsValue)
    (driver : Connect) : list Effect * Settled :=
  let start :=
    [ Log (JsString ("Connecting to mongodb: " ++ oplogURL));
      NewMongoClient oplogURL (mongoOptions credentials) ] in
  match driver with
  | Connected client =>
      let '(effects, result) := getOplogCollection (client "local") in
      ((start ++ effects)%list, result)
  | ConnectFailed reason => (start, Rejected reason)
  | ConnectPending => (start, Pending)
  end.

(** ** The checkpoint *)

(** [x | 0] *)
Definition to_int32 (x : Z) : Z := (x + 2 ^ 31) mod 2 ^ 32 - 2 ^ 31.

(** The 64-bit value of [new Timestamp(low, high)]. *)
Definition timestamp_value (low high : Z) : Z :=
  to_int32 high * 2 ^ 32 + low mod 2 ^ 32.

(** [Timestamp.prototype.toString()]: the value in decimal. *)
Definition timestamp_toString (low high : Z) : string :=
  DecimalString.NilZero.string_of_int (Z.to_int (timestamp_value low high)).

(** The default provider (index.js:241-243), [now] being
    [new Date().getTime()]. *)
Definition default_getLastTimestamp (now : Z) : Settled :=
  Fulfilled (JsTimestamp 0 (now / 1000)).

(** ** The constructor (index.js:62-112) *)

(** The behaviour of the collaborators during one run: how the
    connection poller settles (with the collection of [connectToMongo] or
    with its rejections), how the checkpoint poller settles (with the value
    of the provider, with its rejection, or with the string 'master
    timeout'), and what the stream of [oplog.find(...).stream()]
    delivers.  [args.log] returns without throwing. *)
Record Collaborators := {
  connection : Settled;
  checkpoint : Settled;
  cursor : list StreamEvent
}.

Definition msg_timeout := "getLastTimestamp did not resolve before the timeout".
Definition msg_not_timestamp := "getLastTimestamp() should return a mongodb.Timestamp".

(** [errors[errors.length - 1]] *)
Definition last_error (errors : list JsValue) : JsValue :=
  List.last errors JsUndefined.

(** The [catch] handler (index.js:106-112). *)
Definition on_rejected (errors : JsValue) : list Effect :=
  let error :=
    match errors with
    | JsArray elems => last_error elems
    | _ => errors
    end in
  let error :=
    match error with
    | JsString s =>
        if String.eqb s "master timeout" then JsError Error msg_timeout else error
    | _ => error
    end in
  [ Emit "error" error ].

(** The options of the tailable cursor (index.js:91-96). *)
Definition cursor_options : JsValue :=
  JsObject {[ "tailable" := JsBoolean true; "awaitdata" := JsBoolean true;
              "oplogReplay" := JsBoolean true;
              "numberOfRetries" := JsNumber (-1)%float ]}.

(** The second [then] handler (index.js:85-105). *)
Definition on_timestamp (args : OplogOptions) (oplog lastTimestamp : JsValue)
    (stream : list StreamEvent) : option (list Effect) :=
  match lastTimestamp with
  | JsTimestamp low high =>
      let query := JsObject {[ "ts" := JsObject {[ "$gt" := lastTimestamp ]} ]} in
      match tailing args stream with
      | Some effects =>
          Some (Log (JsString ("Opening tailable cursor to the oplog with timestamp: "
                               ++ timestamp_toString low high))
                :: Find oplog query cursor_options :: effects)
      | None => None
      end
  | _ => Some (on_rejected (JsError Error msg_not_timestamp))
  end.

(** The promise chain (index.js:75-112). *)
Definition pipeline (args : OplogOptions) (w : Collaborators) : option (list Effect) :=
  match connection w with
  | Pending => Some []
  | Rejected errors => Some (on_rejected errors)
  | Fulfilled oplog =>
      let connected := Log (JsString "Connected to mongodb local collection") in
      match checkpoint w with
      | Pending => Some [connected]
      | Rejected errors => Some (connected :: on_rejected errors)
      | Fulfilled lastTimestamp =>
          match on_timestamp args oplog lastTimestamp (cursor w) with
          | Some effects => Some (connected :: effects)
          | None => None
          end
      end
  end.

(** [new OplogEmitter(args)]: validation throws synchronously; otherwise
    the effects of the promise chain. *)
Definition OplogEmitter (args : JsValue) (w : Collaborators)
  : Modelled (list Effect) :=
  match validateArgs args with
  | Throw e => Some (Throw e)
  | Return (JsObject props) =>
      match options_of props with
      | Some options =>
          match pipeline options w with
          | Some effects => Some (Return effects)
          | None => None
          end
      | None => None
      end
  | Return _ => None
  end.

(** * The vocabulary of the properties *)

(** An input that is neither a string nor an object by [typeof]. *)
Definition rejected_type (v : JsValue) : Prop :=
  typeof v <> "string" /\ typeof v <> "object".

(** The [new MongoClient] calls among some effects. *)
Definition client_calls (effects : list Effect) : list Effect :=
  List.filter (fun e => match e with NewMongoClient _ _ => true | _ => false end) effects.

(** The credentials of the test suite. *)
Definition some_credentials : JsValue :=
  JsObject {[ "username" := JsString "username"; "password" := JsString "password" ]}.

(** The database of the second scenario of the specification: no
    "oplog.rs", but "oplog.$main". *)
Definition legacy_db : Db := fun name _ =>
  if String.eqb name "oplog.$main" then (JsNull, JsString "collection")
  else (JsError Error "No such collection", JsUndefined).

(** The active filter accepts the namespace [ns]: the pattern built from
    the options is a regular expression and [ns.match] finds a match. *)
Definition namespace_matches (args : OplogOptions) (ns : string) : Prop :=
  string_match (JsString ns) (namespace_pattern args) = Some (Return true).

(** An oplog document as the cursor delivers it. *)
Definition oplogDocument (ns op : string) : JsValue :=
  JsObject {[ "h" := JsString "123456789"; "v" := JsNumber 2%float;
              "ns" := JsString ns; "op" := JsString op;
              "o" := JsObject {[ "_id" := JsString "123456" ]} ]}.

(** The options [validateArgs] derives from a connection string, with the
    given filter. *)
Definition filter_options (db coll : string) : OplogOptions :=
  {| oplogURL := "test"; getLastTimestamp := Fn_getLastTimestamp;
     database := db; collection := coll; credentials := JsUndefined;
     retries := 5%float; log := Fn_bunyanTrace; timestampTimeout := 30000%float |}.

(** The payloads of the [op] signals among some effects, in order. *)
Definition op_payloads (effects : list Effect) : list JsValue :=
  flat_map (fun e =>
              match e with
              | Emit signal payload =>
                  if String.eqb signal "op" then [payload] else []
              | _ => []
              end) effects.

(** The documents fed to the stage all carry a string namespace. *)
Definition has_namespace (doc : JsValue) : Prop :=
  exists ns, member doc "ns" = JsString ns.

(** Whether the search of [r] accepts the namespace of [doc]. *)
Definition accepts (r : Regex) (doc : JsValue) : bool :=
  match member doc "ns" with
  | JsString ns => search r (list_ascii_of_string ns)
  | _ => false
  end.

(** The signals of one document under the filter [r]. *)
Definition signals_of (r : Regex) (doc : JsValue) : list Effect :=
  if accepts r doc
  then Emit "op" doc :: map emit (specialised doc)
  else [].

(** The three documents of the filtering scenario: only the last two lie
    in the namespace "consumers.records". *)
Definition three_documents : list JsValue :=
  [ oplogDocument "database.collection" "i";
    oplogDocument "consumers.records" "d";
    oplogDocument "consumers.records" "u" ].

(** The pattern of the filter "consumers", "records". *)
Definition consumers_records : Regex :=
  Eval vm_compute in
    match compile "consumers\.records" with Pattern r => r | _ => Empty end.

(** The [Find] calls among some effects. *)
Definition opens_cursor (effects : list Effect) : bool :=
  existsb (fun e => match e with Find _ _ _ => true | _ => false end) effects.

(** A run in which the provider resolves to the number of seconds instead
    of a timestamp. *)
Definition seconds_checkpoint : Collaborators :=
  {| connection := Fulfilled (JsString "collection");
     checkpoint := Fulfilled (JsNumber 1700000000%float);
     cursor := [] |}.

(** The documents are routed without an exception. *)
Definition routed (args : OplogOptions) (doc : JsValue) : Prop :=
  exists signals, routeEvent args doc = Some (Return signals).

(** A run over one insert, after which the cursor closes. *)
Definition closing_cursor : Collaborators :=
  {| connection := Fulfilled (JsString "collection");
     checkpoint := Fulfilled (JsTimestamp 0 1700000000);
     cursor := [Data (oplogDocument "database.collection" "i"); End] |}.

(** The declarative reading of a pattern: [Matches r i s j t] when [r]
    matches from offset [i], where the rest of the subject is [s], up to
    offset [j], where the rest is [t]. *)
Inductive Matches : Regex -> nat -> list ascii -> nat -> list ascii -> Prop :=
| M_Empty i s : Matches Empty i s i s
| M_Chr c i s : Matches (Chr c) i (c :: s) (S i) s
| M_Dot x i s :
    is_line_terminator x = false -> Matches Dot i (x :: s) (S i) s
| M_Class neg items x i s :
    xorb neg (existsb (fun a => class_atom_matches a x) items) = true ->
    Matches (Class neg items) i (x :: s) (S i) s
| M_Bol s : Matches Bol 0 s 0 s
| M_Eol i : Matches Eol i [] i []
| M_Seq r1 r2 i s j t k u :
    Matches r1 i s j t -> Matches r2 j t k u -> Matches (Seq r1 r2) i s k u
| M_AltL r1 r2 i s j t : Matches r1 i s j t -> Matches (Alt r1 r2) i s j t
| M_AltR r1 r2 i s j t : Matches r2 i s j t -> Matches (Alt r1 r2) i s j t
| M_Star0 r i s : Matches (Star r) i s i s
| M_StarS r i s j t k u :
    Matches r i s j t -> length t < length s -> Matches (Star r) j t k u ->
    Matches (Star r) i s k u.

(** What it means for a matcher to implement a pattern. *)
Definition implements (body : Matcher) (r : Regex) : Prop :=
  forall i s (k : Continuation),
    body i s k = true <-> exists j t, Matches r i s j t /\ k j t = true.

(** The characters with a meaning in a pattern. *)
Definition is_syntax_character (c : ascii) : bool :=
  existsb (Ascii.eqb c)
    ["^"; "$"; "\"; "."; "*"; "+"; "?"; "("; ")"; "["; "]"; "{"; "}"; "|"]%char.

(** A sequence of characters none of which has a meaning in a pattern. *)
Definition literal (l : list ascii) : Prop :=
  Forall (fun c => is_syntax_character c = false) l.

(** The pattern that matches the characters of [l] in sequence, then [r]. *)
Definition sequence (l : list ascii) (r : Regex) : Regex :=
  fold_right (fun c r => Seq (Chr c) r) r l.

(** No quantifier follows. *)
Definition unquantified (s : list ascii) : Prop :=
  match s with
  | [] => True
  | c :: _ => is_quantifier c = false
  end.

(** [sequence l] in front of the pattern a parser returns. *)
Definition prepend (l : list ascii) (p : Parsed Regex) : Parsed Regex :=
  match p with
  | Ok r rest => Ok (sequence l r) rest
  | Bad => Bad
  | Beyond => Beyond
  end.

(** A string without syntax characters. *)
Definition literal_string (s : string) : Prop :=
  literal (list_ascii_of_string s).

(** A [TypeError], constructed by the library or raised by the engine. *)
Definition is_type_error (exn : JsValue) : Prop :=
  (exists message, exn = JsError TypeError message)
  \/ (exists fault, exn = JsNativeError TypeError fault).

(** Credentials as validation accepts them: none, or an object with a
    non-empty string [username] and a non-empty string [password]. *)
Definition well_formed_credentials (credentials : JsValue) : Prop :=
  credentials = JsUndefined
  \/ exists (c : gmap string JsValue) (u p : string),
       credentials = JsObject c
       /\ prop c "username" = JsString u /\ u <> ""
       /\ prop c "password" = JsString p /\ p <> "".

(** An options object with every default of [validateArgs] filled in where
    the property is absent or undefined. *)
Definition with_defaults (args : gmap string JsValue) : gmap string JsValue :=
  <["timestampTimeout" := or_default (prop args "timestampTimeout") (JsNumber 30000%float)]>
  (<["log" := or_default (prop args "log") (JsFunction Fn_bunyanTrace)]>
  (<["retries" := or_default (prop args "retries") (JsNumber 5%float)]>
  (<["collection" := or_default (prop args "collection") (JsString ".*")]>
  (<["database" := or_default (prop args "database") (JsString ".*")]>
  (<["getLastTimestamp" :=
       or_default (prop args "getLastTimestamp") (JsFunction Fn_getLastTimestamp)]>
   args))))).

(** The names of the signals [routeEvent] emits. *)
Definition routed_signal (name : string) : Prop :=
  name = "op" \/ name = "insert" \/ name = "delete" \/ name = "update".

(** The pattern of the default filter, ".*\..*". *)
Definition default_pattern : Regex :=
  Seq (Star Dot) (Seq (Chr ".") (Seq (Star Dot) Empty)).

(** The namespace has a dot in it. *)
Definition has_dot (ns : string) : Prop :=
  In "."%char (list_ascii_of_string ns).

(** No handler threw. *)
Definition no_exception (effects : list Effect) : Prop :=
  forall exn, ~ In (Uncaught exn) effects.

(** An effect of the ['data'] handler on one of [docs]: a routed signal
    with the document as payload, or the exception that left the handler. *)
Definition data_effect (docs : list JsValue) (effect : Effect) : Prop :=
  (exists name doc, effect = Emit name doc /\ routed_signal name /\ In doc docs)
  \/ (exists exn, effect = Uncaught exn).

(** The [error] signals among some effects. *)
Definition error_signals (effects : list Effect) : list Effect :=
  List.filter (fun e =>
                 match e with
                 | Emit signal _ => String.eqb signal "error"
                 | _ => false
                 end) effects.

(** The [find] calls among some effects. *)
Definition find_calls (effects : list Effect) : list Effect :=
  List.filter (fun e => match e with Find _ _ _ => true | _ => false end) effects.

(** The stream ends at most once, after its documents. *)
Definition ends_at_most_once (stream : list StreamEvent) : Prop :=
  exists docs, stream = map Data docs \/ stream = (map Data docs ++ [End])%list.

(** A run with the default provider at a given time. *)
Definition default_provider_run (now : Z) : Collaborators :=
  {| connection := Fulfilled (JsString "collection");
     checkpoint := default_getLastTimestamp now;
     cursor := [] |}.

(** ** The documents of the test suite (test-utils.js) *)

(** [template] *)
Definition template : gmap string JsValue :=
  {[ "h" := JsString "123456789"; "v" := JsNumber 2%float;
     "ns" := JsString "database.collection"; "op" := JsString "i";
     "o" := JsObject {[ "_id" := JsString "123456" ]} ]}.

(** The [switch (type)] of [createOplogDocument]. *)
Definition set_type (type : JsValue) (instance : gmap string JsValue)
  : gmap string JsValue :=
  match type with
  | JsString t =>
      if String.eqb t "insert" then <["op" := JsString "i"]> instance
      else if String.eqb t "update" then
        let instance := <["op" := JsString "u"]> instance in
        <["o2" := if truthy (prop instance "o") then prop instance "o"
                  else JsObject {[ "_id" := JsString "12345" ]}]> instance
      else if String.eqb t "delete" then <["op" := JsString "d"]> instance
      else instance
  | _ => instance
  end.

(** [createOplogDocument(type, options)], [now] being
    [new Date().getTime()].  The copy of the template through JSON holds
    the same data. *)
Definition createOplogDocument (now : Z) (type options : JsValue)
  : Outcome JsValue :=
  let instance := <["ts" := JsTimestamp 0 (now / 1000)]> template in
  let options := if is_undefined options then JsObject ∅ else options in
  operation <- get_prop options "operation" ;;
  let instance :=
    if truthy operation then <["o" := operation]> instance else instance in
  namespace <- get_prop options "namespace" ;;
  let instance :=
    if truthy namespace then <["ns" := namespace]> instance else instance in
  Return (JsObject (set_type type instance)).

(** The signal a document of the given type is meant for; a type that is
    none of the three leaves the template's insert. *)
Definition signal_of_type (type : JsValue) : string :=
  match type with
  | JsString t =>
      if String.eqb t "update" then "update"
      else if String.eqb t "delete" then "delete"
      else "insert"
  | _ => "insert"
  end.

(** * Properties *)

(** ** Values *)

Lemma typeof_string_inv (v : JsValue) :
  str_neq (typeof v) "string" = false -> exists s, v = JsString s.
Proof. destruct v; simpl; try discriminate; eauto. Qed.

Lemma typeof_function_inv (v : JsValue) :
  str_neq (typeof v) "function" = false -> exists f, v = JsFunction f.
Proof. destruct v; simpl; try discriminate; eauto. Qed.

Lemma typeof_number_inv (v : JsValue) :
  str_neq (typeof v) "number" = false -> exists x, v = JsNumber x.
Proof. destruct v; simpl; try discriminate; eauto. Qed.

Lemma prop_insert_eq (args : gmap string JsValue) (k : string) (v : JsValue) :
  prop (<[k := v]> args) k = v.
Proof. unfold prop. now rewrite lookup_insert_eq. Qed.

Lemma prop_insert_ne (args : gmap string JsValue) (k k' : string) (v : JsValue) :
  k <> k' -> prop (<[k := v]> args) k' = prop args k'.
Proof. intros H. unfold prop. now rewrite lookup_insert_ne. Qed.

(** ** Argument validation *)

(** C3, as the code has it: every input whose [typeof] is neither
    ['string'] nor ['object'] ([undefined], a boolean, a number, a
    function) is rejected by the first test of [validateArgs], with a
    [TypeError] whose message is "argument should be a connectionstring or
    a map of options"; no other test contributes to the result. *)
Theorem validateArgs_rejects_non_object (v : JsValue) :
  rejected_type v ->
  validateArgs v
  = Throw (JsError TypeError
             "argument should be a connectionstring or a map of options").
Proof.
  intros [Hs Ho].
  destruct v; simpl in Hs, Ho; try congruence; reflexivity.
Qed.

Lemma validateArgs_rejects_non_object_witness :
  rejected_type JsUndefined /\
  validateArgs JsUndefined
  = Throw (JsError TypeError
             "argument should be a connectionstring or a map of options").
Proof.
  assert (H : rejected_type JsUndefined) by (split; discriminate).
  split; [exact H | exact (validateArgs_rejects_non_object JsUndefined H)].
Defined.

(** C3 as stated fails: the message thrown for [false] is spelled
    "connectionstring", and [null] passes the first test, so that the
    engine throws while reading [args.oplogURL]. *)
Lemma validateArgs_message_counterexample :
  validateArgs (JsBoolean false)
  <> Throw (JsError TypeError
              "argument should be a connection string or a map of options")
  /\ validateArgs JsNull
     <> Throw (JsError TypeError
                 "argument should be a connection string or a map of options").
Proof. split; discriminate. Qed.

(** What [null] does: the first test lets it through and the read of
    [args.oplogURL] throws. *)
Lemma validateArgs_null :
  validateArgs JsNull
  = Throw (JsNativeError TypeError (ReadPropertyOf "oplogURL" true)).
Proof. reflexivity. Qed.

(** C4: a configuration that supplies only [oplogURL] is accepted, and the
    normalised configuration holds the defaults: [database] and
    [collection] are ".*", [retries] is 5, [timestampTimeout] is 30000,
    [getLastTimestamp] is the built-in provider, and there is no
    [credentials] property. *)
Theorem validateArgs_defaults (url : string) :
  exists cfg : gmap string JsValue,
    validateArgs (JsObject {[ "oplogURL" := JsString url ]}) = Return (JsObject cfg)
    /\ cfg !! "oplogURL" = Some (JsString url)
    /\ cfg !! "database" = Some (JsString ".*")
    /\ cfg !! "collection" = Some (JsString ".*")
    /\ cfg !! "retries" = Some (JsNumber 5%float)
    /\ cfg !! "timestampTimeout" = Some (JsNumber 30000%float)
    /\ cfg !! "getLastTimestamp" = Some (JsFunction Fn_getLastTimestamp)
    /\ cfg !! "credentials" = None.
Proof.
  eexists. split; [vm_compute; reflexivity |].
  repeat split; vm_compute; reflexivity.
Qed.

(** A configuration whose [oplogURL] is not a string is rejected. *)
Lemma validateArgs_url_type (v : JsValue) :
  is_undefined v = false ->
  typeof v <> "string" ->
  validateArgs (JsObject {[ "oplogURL" := v ]})
  = Throw (JsError TypeError "oplogURL must be a string").
Proof.
  intros Hu Ht.
  change (validateArgs (JsObject {[ "oplogURL" := v ]}))
    with (bind (validateProps {[ "oplogURL" := v ]})
            (fun props' => Return (JsObject props'))).
  unfold validateProps, throw_if, prop. rewrite lookup_singleton_eq.
  cbn [default id]. rewrite Hu. unfold str_neq.
  destruct (String.eqb_spec (typeof v) "string"); [contradiction | reflexivity].
Qed.

(** The cases of the test suite of [validateArgs]. *)
Example validateArgs_empty_object :
  validateArgs (JsObject ∅) = Throw (JsError TypeError "oplogURL must be specified").
Proof. reflexivity. Qed.

Example validateArgs_database_type :
  validateArgs (JsObject {[ "oplogURL" := JsString "test";
                            "database" := JsNumber 12345%float ]})
  = Throw (JsError TypeError "database should be a string").
Proof. vm_compute. reflexivity. Qed.

Example validateArgs_credentials_type :
  validateArgs (JsObject {[ "oplogURL" := JsString "test";
                            "credentials" := JsNumber 12345%float ]})
  = Throw (JsError TypeError "credentials should be provided as an object").
Proof. vm_compute. reflexivity. Qed.

Example validateArgs_credentials_username :
  validateArgs (JsObject {[ "oplogURL" := JsString "test";
                            "credentials" :=
                              JsObject {[ "password" := JsString "password" ]} ]})
  = Throw (JsError TypeError
             "credentials should have an attribute username that is a string").
Proof. vm_compute. reflexivity. Qed.

Example validateArgs_credentials_password :
  validateArgs (JsObject {[ "oplogURL" := JsString "test";
                            "credentials" :=
                              JsObject {[ "username" := JsString "username";
                                          "password" := JsNumber 12345%float ]} ]})
  = Throw (JsError TypeError
             "credentials should have an attribute password that is a string").
Proof. vm_compute. reflexivity. Qed.

Example validateArgs_retries_type :
  validateArgs (JsObject {[ "oplogURL" := JsString "test";
                            "retries" := JsString "retries" ]})
  = Throw (JsError TypeError "retries should be a number").
Proof. vm_compute. reflexivity. Qed.

Example validateArgs_keeps_credentials :
  exists cfg,
    validateArgs (JsObject {[ "oplogURL" := JsString "test";
                              "credentials" := some_credentials ]})
    = Return (JsObject cfg)
    /\ cfg !! "credentials" = Some some_credentials.
Proof. eexists. split; vm_compute; reflexivity. Qed.

(** Validation establishes the types [options_of] expects. *)
Lemma validateProps_typed (args args' : gmap string JsValue) :
  validateProps args = Return args' ->
  exists o, options_of args' = Some o.
Proof.
  unfold validateProps, throw_if.
  repeat match goal with
         | |- context [if ?c then Throw _ else _] => destruct c eqn:?; [discriminate |]
         end.
  destruct (validateCredentials _); simpl; [| discriminate].
  repeat match goal with
         | |- context [if ?c then Throw _ else _] => destruct c eqn:?; [discriminate |]
         end.
  intros [= <-].
  repeat match goal with
         | H : str_neq (typeof _) "string" = false |- _ =>
             apply typeof_string_inv in H; destruct H as [? H]
         | H : str_neq (typeof _) "function" = false |- _ =>
             apply typeof_function_inv in H; destruct H as [? H]
         | H : str_neq (typeof _) "number" = false |- _ =>
             apply typeof_number_inv in H; destruct H as [? H]
         end.
  unfold options_of.
  repeat (rewrite ?prop_insert_eq in *; rewrite ?prop_insert_ne in * by discriminate).
  repeat match goal with
         | H : _ = JsString _ |- _ => rewrite H; clear H
         | H : _ = JsFunction _ |- _ => rewrite H; clear H
         | H : _ = JsNumber _ |- _ => rewrite H; clear H
         end.
  eexists; reflexivity.
Qed.

Lemma validateArgs_typed (args cfg : JsValue) :
  validateArgs args = Return cfg ->
  exists props o, cfg = JsObject props /\ options_of props = Some o.
Proof.
  unfold validateArgs, throw_if.
  destruct (str_neq _ "object"); [discriminate |].
  destruct (if String.eqb (typeof args) "string" then _ else args);
    try discriminate.
  destruct (validateProps props) as [props' |] eqn:Hv; simpl; [| discriminate].
  intros [= <-]. destruct (validateProps_typed _ _ Hv) as [o Ho]. eauto.
Qed.

(** ** Connecting *)

Lemma getOplogCollection_no_client (db : Db) :
  client_calls (fst (getOplogCollection db)) = [].
Proof.
  unfold getOplogCollection.
  destruct (db "oplog.rs" strict) as [error oplog].
  destruct (truthy error); [| reflexivity].
  destruct (db "oplog.$main" strict) as [error2 mainOplog].
  destruct (truthy error2); reflexivity.
Qed.

(** C9: every attempt builds one client, with the options
    [mongoOptions credentials].  When credentials are supplied the options
    are exactly [auth], with [user] and [password] taken from
    [credentials.username] and [credentials.password], and [authSource],
    which is the string "adming" and not "admin"; when they are absent the
    options are the empty object. *)
Theorem connectToMongo_options (oplogURL : string) (credentials : JsValue)
    (driver : Connect) :
  client_calls (fst (connectToMongo oplogURL credentials driver))
  = [NewMongoClient oplogURL (mongoOptions credentials)]
  /\ (truthy credentials = true ->
      exists options auth : gmap string JsValue,
        mongoOptions credentials = JsObject options
        /\ dom options = {[ "auth"; "authSource" ]}
        /\ options !! "auth" = Some (JsObject auth)
        /\ dom auth = {[ "user"; "password" ]}
        /\ auth !! "user" = Some (member credentials "username")
        /\ auth !! "password" = Some (member credentials "password")
        /\ options !! "authSource" = Some (JsString "adming")
        /\ options !! "authSource" <> Some (JsString "admin"))
  /\ (truthy credentials = false -> mongoOptions credentials = JsObject ∅).
Proof.
  split; [| split].
  - unfold connectToMongo. destruct driver as [client | reason |]; try reflexivity.
    pose proof (getOplogCollection_no_client (client "local")) as H.
    destruct (getOplogCollection (client "local")) as [effects result].
    simpl in *. now rewrite H.
  - intros Ht. unfold mongoOptions. rewrite Ht.
    eexists _, _. split; [reflexivity |].
    repeat split; try (vm_compute; reflexivity).
    vm_compute. discriminate.
  - intros Hf. unfold mongoOptions. now rewrite Hf.
Qed.

Lemma connectToMongo_options_witness :
  truthy some_credentials = true /\ truthy JsUndefined = false /\
  exists options, mongoOptions some_credentials = JsObject options
                  /\ options !! "authSource" = Some (JsString "adming").
Proof.
  split; [reflexivity | split; [reflexivity |]].
  destruct (connectToMongo_options "mongodb://localhost:27017/local" some_credentials
              ConnectPending) as (_ & Hs & _).
  destruct (Hs eq_refl) as (options & auth & H1 & _ & _ & _ & _ & _ & H2 & _).
  exists options. split; [exact H1 | exact H2].
Defined.

(** C5: the resolver looks up "oplog.rs" first, strictly; it looks up
    "oplog.$main", strictly, exactly when that first lookup failed, after
    logging the failure; when both fail it logs the second failure and
    rejects with the error "Could not find oplog collection. Make sure
    mongodb is configured for replication"; otherwise it resolves with the
    collection of the lookup that succeeded. *)
Theorem getOplogCollection_order (db : Db) :
  let first := db "oplog.rs" (JsObject {[ "strict" := JsBoolean true ]}) in
  let second := db "oplog.$main" (JsObject {[ "strict" := JsBoolean true ]}) in
  let effects := fst (getOplogCollection db) in
  let result := snd (getOplogCollection db) in
  hd_error effects
  = Some (Collection "oplog.rs" (JsObject {[ "strict" := JsBoolean true ]}))
  /\ (truthy (fst first) = false ->
      effects = [Collection "oplog.rs" (JsObject {[ "strict" := JsBoolean true ]})]
      /\ result = Fulfilled (snd first))
  /\ (truthy (fst first) = true ->
      firstn 3 effects
      = [Collection "oplog.rs" (JsObject {[ "strict" := JsBoolean true ]});
         Log (fst first);
         Collection "oplog.$main" (JsObject {[ "strict" := JsBoolean true ]})])
  /\ (truthy (fst first) = true -> truthy (fst second) = false ->
      length effects = 3 /\ result = Fulfilled (snd second))
  /\ (truthy (fst first) = true -> truthy (fst second) = true ->
      skipn 3 effects = [Log (fst second)]
      /\ result
         = Rejected (JsError Error
             "Could not find oplog collection. Make sure mongodb is configured for replication")).
Proof.
  cbv zeta. unfold getOplogCollection. fold strict.
  destruct (db "oplog.rs" strict) as [error oplog].
  destruct (db "oplog.$main" strict) as [error2 mainOplog].
  simpl fst; simpl snd.
  destruct (truthy error), (truthy error2); simpl;
    repeat split; intros; try discriminate; reflexivity.
Qed.

Lemma getOplogCollection_order_witness :
  truthy (fst (legacy_db "oplog.rs" strict)) = true
  /\ truthy (fst (legacy_db "oplog.$main" strict)) = false
  /\ snd (getOplogCollection legacy_db) = Fulfilled (JsString "collection").
Proof.
  split; [reflexivity | split; [reflexivity |]].
  destruct (getOplogCollection_order legacy_db) as (_ & _ & _ & H & _).
  destruct (H eq_refl eq_refl) as [_ Hr]. exact Hr.
Defined.

(** ** Routing *)

Lemma get_prop_member (v : JsValue) (k : string) (s : string) :
  member v k = JsString s -> get_prop v k = Return (JsString s).
Proof. destruct v; simpl; intros H; try discriminate. now rewrite H. Qed.

Lemma specialised_other (oplogEvent : JsValue) :
  member oplogEvent "op" <> JsString "i" ->
  member oplogEvent "op" <> JsString "d" ->
  member oplogEvent "op" <> JsString "u" ->
  specialised oplogEvent = [].
Proof.
  unfold specialised. intros Hi Hd Hu.
  destruct (member oplogEvent "op"); try reflexivity.
  destruct (String.eqb_spec s "i"); [subst; congruence |].
  destruct (String.eqb_spec s "d"); [subst; congruence |].
  destruct (String.eqb_spec s "u"); [subst; congruence |].
  reflexivity.
Qed.

(** C1: an event whose namespace the filter accepts is emitted as [op] and
    then as the one signal its operation code selects, [insert] for "i",
    [delete] for "d", [update] for "u", with the same event as payload of
    both; with any other operation code it is emitted as [op] only. *)
Theorem routeEvent_matching (args : OplogOptions) (oplogEvent : JsValue)
    (ns : string) :
  member oplogEvent "ns" = JsString ns ->
  namespace_matches args ns ->
  (member oplogEvent "op" = JsString "i" ->
   routeEvent args oplogEvent
   = Some (Return [("op", oplogEvent); ("insert", oplogEvent)]))
  /\ (member oplogEvent "op" = JsString "d" ->
      routeEvent args oplogEvent
      = Some (Return [("op", oplogEvent); ("delete", oplogEvent)]))
  /\ (member oplogEvent "op" = JsString "u" ->
      routeEvent args oplogEvent
      = Some (Return [("op", oplogEvent); ("update", oplogEvent)]))
  /\ (member oplogEvent "op" <> JsString "i" ->
      member oplogEvent "op" <> JsString "d" ->
      member oplogEvent "op" <> JsString "u" ->
      routeEvent args oplogEvent = Some (Return [("op", oplogEvent)])).
Proof.
  intros Hns Hm. unfold routeEvent.
  rewrite (get_prop_member _ _ _ Hns). unfold namespace_matches in Hm. rewrite Hm.
  repeat split.
  - intros Hop. unfold specialised. now rewrite Hop.
  - intros Hop. unfold specialised. now rewrite Hop.
  - intros Hop. unfold specialised. now rewrite Hop.
  - intros Hi Hd Hu. now rewrite specialised_other.
Qed.

Lemma routeEvent_matching_witness :
  routeEvent (filter_options ".*" ".*") (oplogDocument "database.collection" "i")
  = Some (Return [("op", oplogDocument "database.collection" "i");
                  ("insert", oplogDocument "database.collection" "i")]).
Proof.
  apply (routeEvent_matching (filter_options ".*" ".*")
           (oplogDocument "database.collection" "i") "database.collection");
    vm_compute; reflexivity.
Defined.

(** ** The tailing stage *)

Lemma op_payloads_app (xs ys : list Effect) :
  op_payloads (xs ++ ys)%list = (op_payloads xs ++ op_payloads ys)%list.
Proof. unfold op_payloads. now rewrite flat_map_app. Qed.

Lemma op_payloads_specialised (doc : JsValue) :
  op_payloads (map emit (specialised doc)) = [].
Proof.
  unfold specialised. destruct (member doc "op"); try reflexivity.
  destruct (String.eqb s "i"); [reflexivity |].
  destruct (String.eqb s "d"); [reflexivity |].
  destruct (String.eqb s "u"); reflexivity.
Qed.

Lemma routeEvent_signals (args : OplogOptions) (r : Regex) (doc : JsValue) :
  compile (namespace_pattern args) = Pattern r ->
  has_namespace doc ->
  exists signals,
    routeEvent args doc = Some (Return signals)
    /\ map emit signals = signals_of r doc.
Proof.
  intros Hc [ns Hns]. unfold routeEvent, signals_of, accepts.
  rewrite (get_prop_member _ _ _ Hns), Hns. simpl. rewrite Hc.
  destruct (search r (list_ascii_of_string ns)); eexists; split; reflexivity.
Qed.

(** C2: fed a finite sequence of documents, the stage emits for each
    document, in the order of the input, nothing when the filter rejects
    its namespace and its own signals when the filter accepts it; the
    payloads of the [op] signals are the accepted documents, in the order
    of the input, each once. *)
Theorem tailing_preserves_order (args : OplogOptions) (r : Regex)
    (docs : list JsValue) :
  compile (namespace_pattern args) = Pattern r ->
  Forall has_namespace docs ->
  exists effects,
    tailing args (map Data docs) = Some effects
    /\ effects = flat_map (signals_of r) docs
    /\ (forall doc, In doc docs -> accepts r doc = false -> signals_of r doc = [])
    /\ op_payloads effects = List.filter (accepts r) docs
    /\ length (op_payloads effects) = length (List.filter (accepts r) docs).
Proof.
  intros Hc Hdocs.
  assert (Ht : tailing args (map Data docs) = Some (flat_map (signals_of r) docs)).
  { induction Hdocs as [| doc docs Hdoc _ IH]; [reflexivity |].
    simpl. destruct (routeEvent_signals args r doc Hc Hdoc) as (signals & Hr & Hs).
    now rewrite Hr, IH, Hs. }
  assert (Hp : op_payloads (flat_map (signals_of r) docs) = List.filter (accepts r) docs).
  { clear. induction docs as [| doc docs IH]; [reflexivity |].
    simpl. rewrite op_payloads_app, IH. unfold signals_of.
    destruct (accepts r doc); [| reflexivity].
    change (op_payloads (Emit "op" doc :: map emit (specialised doc)))
      with (doc :: op_payloads (map emit (specialised doc))).
    now rewrite op_payloads_specialised. }
  eexists. split; [exact Ht |]. split; [reflexivity |]. split.
  - intros doc _ Hn. unfold signals_of. now rewrite Hn.
  - split; [exact Hp | now rewrite Hp].
Qed.

Lemma tailing_preserves_order_witness :
  exists effects,
    tailing (filter_options "consumers" "records") (map Data three_documents)
    = Some effects
    /\ op_payloads effects
       = [ oplogDocument "consumers.records" "d";
           oplogDocument "consumers.records" "u" ].
Proof.
  destruct (tailing_preserves_order (filter_options "consumers" "records")
              consumers_records three_documents)
    as (effects & Ht & _ & _ & Hp & _).
  - vm_compute. reflexivity.
  - repeat constructor; eexists; vm_compute; reflexivity.
  - exists effects. split; [exact Ht |]. rewrite Hp. vm_compute. reflexivity.
Defined.

(** ** The constructor *)

Lemma OplogEmitter_pipeline (a : JsValue) (props : gmap string JsValue)
    (w : Collaborators) :
  validateArgs a = Return (JsObject props) ->
  exists args,
    options_of props = Some args
    /\ OplogEmitter a w
       = match pipeline args w with
         | Some effects => Some (Return effects)
         | None => None
         end.
Proof.
  intros Hv. destruct (validateArgs_typed _ _ Hv) as (props' & args & [= <-] & Ho).
  exists args. split; [exact Ho |]. unfold OplogEmitter. now rewrite Hv, Ho.
Qed.

(** C7: when the checkpoint provider resolves to a value that is not a
    [mongodb.Timestamp], no cursor is opened and the run ends with the
    [error] signal carrying "getLastTimestamp() should return a
    mongodb.Timestamp". *)
Theorem checkpoint_not_a_timestamp (a cfg oplog lastTimestamp : JsValue)
    (w : Collaborators) :
  validateArgs a = Return cfg ->
  connection w = Fulfilled oplog ->
  checkpoint w = Fulfilled lastTimestamp ->
  instanceof_Timestamp lastTimestamp = false ->
  exists effects,
    OplogEmitter a w = Some (Return effects)
    /\ effects
       = [ Log (JsString "Connected to mongodb local collection");
           Emit "error"
             (JsError Error "getLastTimestamp() should return a mongodb.Timestamp") ]
    /\ opens_cursor effects = false.
Proof.
  intros Hv Hc Ht Hi.
  destruct (validateArgs_typed _ _ Hv) as (props & _ & -> & _).
  destruct (OplogEmitter_pipeline a props w Hv) as (args & _ & ->).
  unfold pipeline. rewrite Hc, Ht.
  destruct lastTimestamp; try discriminate Hi; simpl;
    eexists; repeat split; reflexivity.
Qed.

Lemma checkpoint_not_a_timestamp_witness :
  exists effects,
    OplogEmitter (JsString "test") seconds_checkpoint = Some (Return effects)
    /\ opens_cursor effects = false.
Proof.
  destruct (validateArgs (JsString "test")) as [cfg | exn] eqn:Hv;
    [| vm_compute in Hv; discriminate Hv].
  destruct (checkpoint_not_a_timestamp (JsString "test") cfg (JsString "collection")
              (JsNumber 1700000000%float) seconds_checkpoint Hv
              eq_refl eq_refl eq_refl) as (effects & He & _ & Hn).
  exists effects. split; [exact He | exact Hn].
Defined.

Lemma tailing_end (args : OplogOptions) (docs : list JsValue) :
  Forall (routed args) docs ->
  exists before,
    tailing args (map Data docs ++ [End])%list = Some (before ++ on_end)%list.
Proof.
  induction 1 as [| doc docs [signals Hr] _ [before IH]].
  - exists []. reflexivity.
  - exists (map emit signals ++ before)%list. simpl.
    rewrite Hr. simpl in IH. rewrite IH. now rewrite <- app_assoc.
Qed.

(** C8: when the stream of the cursor ends, after any number of documents,
    the run logs "Tailable cursor was closed" and then emits the [error]
    signal carrying "Database cursor closed unexpectedly". *)
Theorem cursor_end_is_an_error (a : JsValue) (props : gmap string JsValue)
    (args : OplogOptions) (oplog : JsValue) (low high : Z)
    (docs : list JsValue) (w : Collaborators) :
  validateArgs a = Return (JsObject props) ->
  options_of props = Some args ->
  connection w = Fulfilled oplog ->
  checkpoint w = Fulfilled (JsTimestamp low high) ->
  cursor w = (map Data docs ++ [End])%list ->
  Forall (routed args) docs ->
  exists before,
    OplogEmitter a w
    = Some (Return (before ++
        [ Log (JsString "Tailable cursor was closed");
          Emit "error" (JsError Error "Database cursor closed unexpectedly") ])%list).
Proof.
  intros Hv Ho Hc Ht Hs Hdocs.
  destruct (OplogEmitter_pipeline a props w Hv) as (args' & Ho' & ->).
  rewrite Ho in Ho'. injection Ho' as <-.
  unfold pipeline, on_timestamp. rewrite Hc, Ht, Hs.
  destruct (tailing_end args docs Hdocs) as [before ->].
  eexists (_ :: _ :: _ :: before). reflexivity.
Qed.

Lemma cursor_end_is_an_error_witness :
  exists before,
    OplogEmitter (JsString "test") closing_cursor
    = Some (Return (before ++
        [ Log (JsString "Tailable cursor was closed");
          Emit "error" (JsError Error "Database cursor closed unexpectedly") ])%list).
Proof.
  destruct (validateArgs (JsString "test")) as [[| | | | | | | | | | props] | exn] eqn:Hv;
    try (vm_compute in Hv; discriminate Hv).
  destruct (options_of props) as [args |] eqn:Ho;
    [| destruct (validateArgs_typed _ _ Hv) as (? & ? & [= <-] & Ho'); congruence].
  apply (cursor_end_is_an_error (JsString "test") props args (JsString "collection")
           0 1700000000 [oplogDocument "database.collection" "i"] closing_cursor
           Hv Ho eq_refl eq_refl eq_refl).
  constructor; [| constructor].
  injection Hv as <-. vm_compute in Ho. injection Ho as <-.
  eexists. vm_compute. reflexivity.
Defined.

(** The statable part of the checkpoint timeout: when the poller rejects
    with the string 'master timeout', the run ends with one [error] signal
    carrying "getLastTimestamp did not resolve before the timeout". *)
Lemma master_timeout_is_an_error (args : OplogOptions) (oplog : JsValue)
    (w : Collaborators) :
  connection w = Fulfilled oplog ->
  checkpoint w = Rejected (JsString "master timeout") ->
  pipeline args w
  = Some [ Log (JsString "Connected to mongodb local collection");
           Emit "error"
             (JsError Error "getLastTimestamp did not resolve before the timeout") ].
Proof. intros Hc Ht. unfold pipeline. now rewrite Hc, Ht. Qed.

(** A failed connection surfaces the last rejection of the poller. *)
Lemma connection_failure_is_an_error (args : OplogOptions)
    (errors : list JsValue) (w : Collaborators) :
  connection w = Rejected (JsArray errors) ->
  pipeline args w = Some [ Emit "error" (last_error errors) ]
  \/ last_error errors = JsString "master timeout".
Proof.
  intros Hc. unfold pipeline, on_rejected. rewrite Hc.
  destruct (last_error errors); auto.
  destruct (String.eqb_spec s "master timeout"); subst; auto.
Qed.

(** The default provider resolves to a timestamp. *)
Lemma default_getLastTimestamp_is_timestamp (now : Z) :
  exists v, default_getLastTimestamp now = Fulfilled v
            /\ instanceof_Timestamp v = true.
Proof. eexists. split; reflexivity. Qed.

(** ** The regular-expression fragment *)

Section MatcherFacts.

Local Open Scope list_scope.

Lemma repeat_matcher_spec (body : Matcher) (r : Regex) (k : Continuation) :
  implements body r ->
  forall n i s, length s <= n ->
    repeat_matcher body k n i s = true
    <-> exists j t, Matches (Star r) i s j t /\ k j t = true.
Proof.
  unfold implements. intros Hbody. induction n as [| n IH]; intros i s Hlen.
  - simpl. rewrite orb_false_r. split.
    + intros Hk. exists i, s. split; [constructor | exact Hk].
    + intros (j & t & Hm & Hk). inversion Hm; subst; [exact Hk | lia].
  - simpl. rewrite orb_true_iff, Hbody. split.
    + intros [Hk | (j & t & Hm & Hr)].
      * exists i, s. split; [constructor | exact Hk].
      * apply andb_true_iff in Hr. destruct Hr as [Hlt Hr].
        apply Nat.ltb_lt in Hlt. apply IH in Hr; [| lia].
        destruct Hr as (j' & t' & Hm' & Hk). exists j', t'.
        split; [eapply M_StarS; eassumption | exact Hk].
    + intros (j & t & Hm & Hk). inversion Hm; subst; [now left |].
      right. eexists _, _. split; [eassumption |].
      apply andb_true_iff. split; [now apply Nat.ltb_lt |].
      apply IH; [lia |]. eauto.
Qed.

(** The matcher agrees with the declarative reading. *)
Lemma m_spec (r : Regex) : implements (m r) r.
Proof.
  induction r as [| c | | neg items | | | r1 IH1 r2 IH2 | r1 IH1 r2 IH2 | r IH];
    unfold implements in *; intros i s k; simpl.
  - split; [intros H; exists i, s; split; [constructor | exact H] |].
    intros (j & t & Hm & Hk). now inversion Hm; subst.
  - destruct s as [| x s].
    + split; [discriminate | intros (j & t & Hm & _); inversion Hm].
    + rewrite andb_true_iff. split.
      * intros [Hx Hk]. apply Ascii.eqb_eq in Hx. subst.
        exists (S i), s. split; [constructor | exact Hk].
      * intros (j & t & Hm & Hk). inversion Hm; subst.
        split; [apply Ascii.eqb_refl | exact Hk].
  - destruct s as [| x s].
    + split; [discriminate | intros (j & t & Hm & _); inversion Hm].
    + rewrite andb_true_iff, negb_true_iff. split.
      * intros [Hx Hk]. exists (S i), s. split; [now constructor | exact Hk].
      * intros (j & t & Hm & Hk). inversion Hm; subst. now split.
  - destruct s as [| x s].
    + split; [discriminate | intros (j & t & Hm & _); inversion Hm].
    + rewrite andb_true_iff. split.
      * intros [Hx Hk]. exists (S i), s. split; [now constructor | exact Hk].
      * intros (j & t & Hm & Hk). inversion Hm; subst. now split.
  - rewrite andb_true_iff, Nat.eqb_eq. split.
    + intros [-> Hk]. exists 0, s. split; [constructor | exact Hk].
    + intros (j & t & Hm & Hk). inversion Hm; subst. now split.
  - destruct s as [| x s].
    + split; [intros H; exists i, []; split; [constructor | exact H] |].
      intros (j & t & Hm & Hk). now inversion Hm; subst.
    + split; [discriminate | intros (j & t & Hm & _); inversion Hm].
  - rewrite IH1. split.
    + intros (j & t & Hm1 & Hm2). apply IH2 in Hm2.
      destruct Hm2 as (j' & t' & Hm2 & Hk). exists j', t'.
      split; [econstructor; eassumption | exact Hk].
    + intros (j & t & Hm & Hk). inversion Hm; subst.
      eexists _, _. split; [eassumption |]. apply IH2. eauto.
  - rewrite orb_true_iff, IH1, IH2. split.
    + intros [(j & t & Hm & Hk) | (j & t & Hm & Hk)]; exists j, t;
        (split; [| exact Hk]); [now apply M_AltL | now apply M_AltR].
    + intros (j & t & Hm & Hk). inversion Hm; subst; [left | right]; eauto.
  - apply repeat_matcher_spec; [exact IH | lia].
Qed.

(** The search succeeds exactly when the pattern matches some stretch of
    the subject. *)
Lemma search_spec (r : Regex) (s : list ascii) :
  search r s = true
  <-> exists i j t, i <= length s /\ Matches r i (skipn i s) j t.
Proof.
  unfold search. rewrite existsb_exists. unfold match_at. split.
  - intros (i & Hin & Hm). apply in_seq in Hin. apply m_spec in Hm.
    destruct Hm as (j & t & Hm & _). exists i, j, t. split; [lia | exact Hm].
  - intros (i & j & t & Hle & Hm). exists i. split; [apply in_seq; lia |].
    apply m_spec. eauto.
Qed.

End MatcherFacts.

Section RegExpFacts.

Local Open Scope list_scope.

(** The search succeeds exactly when some offset of the subject, from 0
    to its length, starts a match: nothing ties the match to either end. *)
Lemma search_anywhere (r : Regex) (s : list ascii) :
  search r s = true <-> exists i, i <= length s /\ match_at r s i = true.
Proof.
  unfold search. rewrite existsb_exists. split.
  - intros (i & Hin & Hm). exists i. apply in_seq in Hin. split; [lia | exact Hm].
  - intros (i & Hle & Hm). exists i. split; [apply in_seq; lia | exact Hm].
Qed.

Lemma syntax_character_cases (c : ascii) :
  is_syntax_character c = false ->
  Ascii.eqb c "|" = false /\ Ascii.eqb c ")" = false /\ Ascii.eqb c "^" = false
  /\ Ascii.eqb c "$" = false /\ Ascii.eqb c "(" = false /\ Ascii.eqb c "[" = false
  /\ Ascii.eqb c "\" = false /\ Ascii.eqb c "." = false /\ is_quantifier c = false
  /\ Ascii.eqb c "{" = false.
Proof.
  unfold is_syntax_character, is_quantifier. simpl. intros H.
  repeat (apply orb_false_elim in H; destruct H as [? H]).
  repeat split; try assumption.
  repeat (apply orb_false_intro; try assumption).
Qed.

(** The equations of the parser on a pattern that is not empty. *)
Lemma parse_alternative_cons (n : nat) (c : ascii) (rest : list ascii) :
  parse_alternative (S n) (c :: rest)
  = if Ascii.eqb c "|" || Ascii.eqb c ")" then Ok Empty (c :: rest)
    else if Ascii.eqb c "^" then
      match parse_alternative n rest with
      | Ok r rest' => Ok (Seq Bol r) rest'
      | Bad => Bad
      | Beyond => Beyond
      end
    else if Ascii.eqb c "$" then
      match parse_alternative n rest with
      | Ok r rest' => Ok (Seq Eol r) rest'
      | Bad => Bad
      | Beyond => Beyond
      end
    else
      match parse_atom n (c :: rest) with
      | Ok a rest1 =>
          let (t, rest2) := parse_quantifier a rest1 in
          match parse_alternative n rest2 with
          | Ok r rest' => Ok (Seq t r) rest'
          | Bad => Bad
          | Beyond => Beyond
          end
      | Bad => Bad
      | Beyond => Beyond
      end.
Proof. reflexivity. Qed.

Lemma parse_atom_plain (n : nat) (c : ascii) (rest : list ascii) :
  Ascii.eqb c "(" = false -> Ascii.eqb c "[" = false -> Ascii.eqb c "\" = false ->
  Ascii.eqb c "." = false -> is_quantifier c = false -> Ascii.eqb c "{" = false ->
  parse_atom (S n) (c :: rest) = Ok (Chr c) rest.
Proof. intros H1 H2 H3 H4 H5 H6. simpl. now rewrite H1, H2, H3, H4, H5, H6. Qed.

Lemma parse_atom_escaped_dot (n : nat) (rest : list ascii) :
  parse_atom (S n) ("\" :: "." :: rest)%char = Ok (Chr ".") rest.
Proof. reflexivity. Qed.

Lemma parse_quantifier_none (r : Regex) (s : list ascii) :
  unquantified s -> parse_quantifier r s = (r, s).
Proof.
  destruct s as [| x s]; [reflexivity |].
  unfold parse_quantifier, unquantified, is_quantifier. intros Hq.
  repeat (apply orb_false_elim in Hq; destruct Hq as [? Hq]).
  destruct (Ascii.eqb x "*"), (Ascii.eqb x "+"), (Ascii.eqb x "?");
    try discriminate; reflexivity.
Qed.

Lemma parse_alternative_literal_char (n : nat) (c : ascii) (rest : list ascii) :
  is_syntax_character c = false ->
  unquantified rest ->
  parse_alternative (S (S n)) (c :: rest)
  = prepend [c] (parse_alternative (S n) rest).
Proof.
  intros Hc Hq.
  destruct (syntax_character_cases c Hc)
    as (H1 & H2 & H3 & H4 & H5 & H6 & H7 & H8 & H9 & H10).
  rewrite parse_alternative_cons, H1, H2, H3, H4. cbn [orb].
  rewrite parse_atom_plain by assumption.
  rewrite parse_quantifier_none by exact Hq.
  destruct (parse_alternative (S n) rest); reflexivity.
Qed.

Lemma literal_unquantified (l tl : list ascii) :
  literal l -> unquantified tl -> unquantified (l ++ tl).
Proof.
  intros Hl Ht. destruct Hl as [| c l Hc _]; [exact Ht |].
  simpl. now destruct (syntax_character_cases c Hc) as (_ & _ & _ & _ & _ & _ & _ & _ & H & _).
Qed.

Lemma parse_alternative_literal (l tl : list ascii) (n : nat) :
  literal l ->
  unquantified tl ->
  parse_alternative (length l + S n) (l ++ tl)
  = prepend l (parse_alternative (S n) tl).
Proof.
  intros Hl Ht. induction Hl as [| c l Hc Hl IH].
  - change (parse_alternative (S n) tl = prepend [] (parse_alternative (S n) tl)).
    destruct (parse_alternative (S n) tl); reflexivity.
  - change (length (c :: l) + S n) with (S (length l + S n)).
    replace (length l + S n) with (S (length l + n)) by lia.
    change ((c :: l) ++ tl) with (c :: (l ++ tl)).
    rewrite parse_alternative_literal_char;
      [| exact Hc | now apply literal_unquantified].
    replace (S (length l + n)) with (length l + S n) by lia.
    rewrite IH. destruct (parse_alternative (S n) tl); reflexivity.
Qed.

(** The escaped dot between the two option strings. *)
Lemma parse_alternative_escaped_dot (n : nat) (rest : list ascii) :
  unquantified rest ->
  parse_alternative (S (S n)) ("\" :: "." :: rest)%char
  = prepend ["."]%char (parse_alternative (S n) rest).
Proof.
  intros Hq. rewrite parse_alternative_cons. cbn [Ascii.eqb Bool.eqb orb].
  rewrite parse_atom_escaped_dot.
  rewrite parse_quantifier_none by exact Hq.
  destruct (parse_alternative (S n) rest); reflexivity.
Qed.

Lemma sequence_app (l1 l2 : list ascii) (r : Regex) :
  sequence (l1 ++ l2) r = sequence l1 (sequence l2 r).
Proof. unfold sequence. now rewrite fold_right_app. Qed.

(** The pattern built from two literal strings parses to the sequence of
    their characters around a dot. *)
Lemma parse_literal_namespace (d c : list ascii) (n : nat) :
  literal d -> literal c ->
  length d + length c + 4 <= n ->
  parse_disjunction n (d ++ "\" :: "." :: c)%char
  = Ok (sequence (d ++ "." :: c)%char Empty) [].
Proof.
  intros Hd Hc Hn.
  destruct n as [| n]; [lia |].
  change (parse_disjunction (S n) ?s) with
    (match parse_alternative n s with
     | Ok r1 (c :: rest) =>
         if Ascii.eqb c "|" then
           match parse_disjunction n rest with
           | Ok r2 rest' => Ok (Alt r1 r2) rest'
           | Bad => Bad
           | Beyond => Beyond
           end
         else Ok r1 (c :: rest)
     | other => other
     end).
  replace n with (length d + S (S (length c + (n - length d - length c - 2))))
    by lia.
  set (k := n - length d - length c - 2).
  assert (Hq : unquantified c).
  { rewrite <- (app_nil_r c). now apply literal_unquantified. }
  rewrite parse_alternative_literal; [| exact Hd | reflexivity].
  rewrite parse_alternative_escaped_dot by exact Hq.
  replace (S (length c + k)) with (length c + S k) by lia.
  replace (parse_alternative (length c + S k) c)
    with (prepend c (parse_alternative (S k) [])).
  2:{ rewrite <- parse_alternative_literal; [| exact Hc | exact I].
      now rewrite app_nil_r. }
  change (parse_alternative (S k) []) with (@Ok Regex Empty []).
  cbn [prepend].
  change ("." :: c)%char with (["."]%char ++ c).
  now rewrite !sequence_app.
Qed.

(** Matching a sequence of characters is stripping a prefix. *)
Lemma m_sequence (l : list ascii) (r : Regex) (i : nat) (s : list ascii)
    (k : nat -> list ascii -> bool) :
  m (sequence l r) i s k = true
  <-> exists rest, s = l ++ rest /\ m r (i + length l) rest k = true.
Proof.
  revert i s. induction l as [| c l IH]; intros i s.
  - simpl. rewrite Nat.add_0_r. split; [eauto | now intros (rest & -> & H)].
  - simpl. destruct s as [| x s].
    + split; [discriminate | intros (rest & H & _); discriminate].
    + rewrite andb_true_iff, IH. split.
      * intros (Hx & rest & -> & H). apply Ascii.eqb_eq in Hx. subst.
        exists rest. split; [reflexivity |].
        now replace (i + S (length l)) with (S i + length l) by lia.
      * intros (rest & [= -> ->] & H). split; [apply Ascii.eqb_refl |].
        exists rest. split; [reflexivity |].
        now replace (S i + length l) with (i + S (length l)) by lia.
Qed.

(** Searching for a sequence of characters is the substring test. *)
Lemma search_sequence (l s : list ascii) :
  search (sequence l Empty) s = true <-> exists pre post, s = pre ++ l ++ post.
Proof.
  rewrite search_anywhere. unfold match_at. split.
  - intros (i & _ & Hm). apply m_sequence in Hm. destruct Hm as (rest & Hs & _).
    exists (firstn i s), rest. rewrite <- Hs. symmetry. apply firstn_skipn.
  - intros (pre & post & ->). exists (length pre). split.
    + rewrite length_app. lia.
    + apply m_sequence. exists post. split; [| reflexivity].
      rewrite skipn_app, skipn_all, Nat.sub_diag. reflexivity.
Qed.

End RegExpFacts.

(** ** The namespace filter *)

Lemma list_ascii_of_string_app (a b : string) :
  list_ascii_of_string (a ++ b)
  = (list_ascii_of_string a ++ list_ascii_of_string b)%list.
Proof. induction a as [| c a IH]; simpl; [reflexivity | now rewrite IH]. Qed.

Lemma list_ascii_of_string_inj (a b : string) :
  list_ascii_of_string a = list_ascii_of_string b -> a = b.
Proof.
  intros H. rewrite <- (string_of_list_ascii_of_string a),
    <- (string_of_list_ascii_of_string b). now rewrite H.
Qed.

(** With literal option strings the pattern compiles to the sequence of
    the characters of "<database>.<collection>". *)
Lemma compile_literal_namespace (d c : string) :
  literal_string d -> literal_string c ->
  compile (d ++ "\." ++ c)
  = Pattern (sequence (list_ascii_of_string (d ++ "." ++ c)) Empty).
Proof.
  intros Hd Hc. unfold compile.
  rewrite !list_ascii_of_string_app.
  change (list_ascii_of_string "\.") with ["\"; "."]%char.
  change (list_ascii_of_string ".") with ["."]%char.
  cbn [app].
  rewrite parse_literal_namespace; [reflexivity | exact Hd | exact Hc |].
  unfold fuel. rewrite length_app. simpl. lia.
Qed.

Lemma routeEvent_decision (args : OplogOptions) (doc : JsValue) (ns : string)
    (r : Regex) :
  member doc "ns" = JsString ns ->
  compile (namespace_pattern args) = Pattern r ->
  routeEvent args doc
  = Some (Return (if search r (list_ascii_of_string ns)
                  then ("op", doc) :: specialised doc else [])).
Proof.
  intros Hns Hc. unfold routeEvent.
  rewrite (get_prop_member _ _ _ Hns). simpl. rewrite Hc.
  now destruct (search r (list_ascii_of_string ns)).
Qed.

(** C10: the router compiles the string "<database>\.<collection>", built
    from the two option strings as they are, to a regular expression and
    searches the namespace for it.  An event is dropped exactly when the
    search fails and routed exactly when the pattern matches some stretch
    of the namespace, from any offset [i] on, so the match is tied to
    neither end.  With option
    strings free of syntax characters the filter is the test that
    "<database>.<collection>" occurs somewhere in the namespace; thus
    database "a" and collection "b" accept the namespace "xa.bz".  Syntax
    characters in the options keep their meaning: database "c.t" with
    collection "x" accepts "cat.x". *)
Theorem namespace_filter_is_unanchored_regex :
  (forall (args : OplogOptions) (doc : JsValue) (ns : string) (r : Regex),
      member doc "ns" = JsString ns ->
      compile (database args ++ "\." ++ collection args) = Pattern r ->
      (routeEvent args doc = Some (Return [])
       <-> search r (list_ascii_of_string ns) = false)
      /\ (routeEvent args doc = Some (Return (("op", doc) :: specialised doc))
          <-> exists i j t,
                i <= length (list_ascii_of_string ns)
                /\ Matches r i (skipn i (list_ascii_of_string ns)) j t))
  /\ (forall (args : OplogOptions) (ns : string),
         literal_string (database args) ->
         literal_string (collection args) ->
         (namespace_matches args ns
          <-> exists pre post,
                ns = pre ++ (database args ++ "." ++ collection args) ++ post))
  /\ (namespace_matches (filter_options "a" "b") "xa.bz" /\ "xa.bz" <> "a.b")
  /\ namespace_matches (filter_options "c.t" "x") "cat.x".
Proof.
  split; [| split; [| split]].
  - intros args doc ns r Hns Hc.
    rewrite (routeEvent_decision args doc ns r Hns Hc), <- search_spec.
    destruct (search r (list_ascii_of_string ns)); split; split;
      intros H; try discriminate H; try reflexivity.
  - intros args ns Hd Hc. unfold namespace_matches, string_match, namespace_pattern.
    rewrite (compile_literal_namespace _ _ Hd Hc). split.
    + intros [= Hs]. apply search_sequence in Hs. destruct Hs as (pre & post & Hs).
      exists (string_of_list_ascii pre), (string_of_list_ascii post).
      apply list_ascii_of_string_inj.
      now rewrite Hs, !list_ascii_of_string_app, !list_ascii_of_string_of_list_ascii.
    + intros (pre & post & ->).
      replace (search _ _) with true; [reflexivity |].
      symmetry. apply search_sequence.
      exists (list_ascii_of_string pre), (list_ascii_of_string post).
      now rewrite !list_ascii_of_string_app.
  - split; [vm_compute; reflexivity | discriminate].
  - vm_compute. reflexivity.
Qed.

Lemma namespace_filter_is_unanchored_regex_witness :
  literal_string "consumers" /\ literal_string "records"
  /\ namespace_matches (filter_options "consumers" "records") "consumers.records".
Proof.
  assert (Hd : literal_string "consumers") by (repeat constructor).
  assert (Hc : literal_string "records") by (repeat constructor).
  split; [exact Hd | split; [exact Hc |]].
  destruct namespace_filter_is_unanchored_regex as (_ & H & _).
  apply (H (filter_options "consumers" "records") "consumers.records" Hd Hc).
  exists "", "". reflexivity.
Defined.

(** * Further properties *)

(** ** Argument validation, beyond the defaults *)

Lemma validateArgs_object (props : gmap string JsValue) :
  validateArgs (JsObject props)
  = bind (validateProps props) (fun props' => Return (JsObject props')).
Proof. reflexivity. Qed.

(** A configuration object without [oplogURL], or with [oplogURL]
    undefined, is rejected with "oplogURL must be specified", whatever
    else it holds. *)
Theorem validateArgs_missing_url (props : gmap string JsValue) :
  prop props "oplogURL" = JsUndefined ->
  validateArgs (JsObject props)
  = Throw (JsError TypeError "oplogURL must be specified").
Proof.
  intros H. rewrite validateArgs_object. unfold validateProps, throw_if.
  now rewrite H.
Qed.

Lemma validateArgs_missing_url_witness :
  validateArgs (JsObject {[ "database" := JsString "consumers" ]})
  = Throw (JsError TypeError "oplogURL must be specified").
Proof. apply validateArgs_missing_url. vm_compute. reflexivity. Defined.

(** A configuration object whose [oplogURL] is defined and not a string is
    rejected with "oplogURL must be a string", whatever else it holds. *)
Theorem validateArgs_url_not_a_string (props : gmap string JsValue) :
  prop props "oplogURL" <> JsUndefined ->
  typeof (prop props "oplogURL") <> "string" ->
  validateArgs (JsObject props)
  = Throw (JsError TypeError "oplogURL must be a string").
Proof.
  intros Hu Ht. rewrite validateArgs_object. unfold validateProps, throw_if.
  destruct (prop props "oplogURL") eqn:Hp; try congruence; simpl in *;
    try reflexivity; congruence.
Qed.

Lemma validateArgs_url_not_a_string_witness :
  validateArgs (JsObject {[ "oplogURL" := JsNumber 12345%float;
                            "retries" := JsString "many" ]})
  = Throw (JsError TypeError "oplogURL must be a string").
Proof.
  apply validateArgs_url_not_a_string; vm_compute; discriminate.
Defined.

Lemma validateCredentials_throws (credentials exn : JsValue) :
  validateCredentials credentials = Throw exn -> is_type_error exn.
Proof.
  unfold validateCredentials, throw_if, is_type_error.
  destruct (is_undefined credentials); [discriminate |].
  destruct (str_neq (typeof credentials) "object"); [intros [= <-]; eauto |].
  destruct (get_prop credentials "username") as [username |] eqn:Hu; simpl.
  2:{ intros [= <-]. destruct credentials; simpl in Hu; try discriminate;
        injection Hu as <-; eauto. }
  destruct (negb (truthy username)); [intros [= <-]; eauto |].
  destruct (str_neq (typeof username) "string"); [intros [= <-]; eauto |].
  destruct (get_prop credentials "password") as [password |] eqn:Hp; simpl.
  2:{ intros [= <-]. destruct credentials; simpl in Hp; try discriminate;
        injection Hp as <-; eauto. }
  destruct (negb (truthy password)); [intros [= <-]; eauto |].
  destruct (str_neq (typeof password) "string"); [intros [= <-]; eauto |].
  discriminate.
Qed.

(** Whatever [validateArgs] throws is a [TypeError], raised by the library
    or, on [null], by the engine. *)
Theorem validateArgs_throws_type_errors (args exn : JsValue) :
  validateArgs args = Throw exn -> is_type_error exn.
Proof.
  unfold validateArgs, throw_if.
  destruct (str_neq _ "object"); [intros [= <-]; left; eauto |].
  destruct (if String.eqb (typeof args) "string" then _ else args);
    try (intros [= <-]; unfold is_type_error; eauto; fail).
  destruct (validateProps props) as [props' | e] eqn:Hv; simpl; [discriminate |].
  intros [= <-]. revert Hv. unfold validateProps, throw_if.
  repeat match goal with
         | |- context [if ?c then Throw _ else _] =>
             destruct c; [intros [= <-]; left; eauto |]
         end.
  destruct (validateCredentials _) eqn:Hc; simpl.
  - repeat match goal with
           | |- context [if ?c then Throw _ else _] =>
               destruct c; [intros [= <-]; left; eauto |]
           end.
    discriminate.
  - intros [= <-]. eapply validateCredentials_throws; eassumption.
Qed.

Lemma validateArgs_throws_type_errors_witness :
  is_type_error (JsNativeError TypeError (ReadPropertyOf "oplogURL" true)).
Proof.
  apply (validateArgs_throws_type_errors JsNull). reflexivity.
Defined.

Lemma prop_is (props : gmap string JsValue) (k : string) (v : JsValue) :
  prop props k = v -> v <> JsUndefined -> props !! k = Some v.
Proof.
  unfold prop. destruct (props !! k); simpl; intros H Hv; congruence.
Qed.

Lemma or_default_defined (x d : JsValue) :
  x <> JsUndefined -> or_default x d = x.
Proof. destruct x; intros H; try reflexivity. congruence. Qed.

(** What [validateCredentials] accepts: no credentials, or an object with
    a non-empty string [username] and a non-empty string [password]. *)
Lemma validateCredentials_accepts (credentials : JsValue) :
  validateCredentials credentials = Return tt <-> well_formed_credentials credentials.
Proof.
  unfold validateCredentials, throw_if, well_formed_credentials. split.
  - destruct credentials; simpl; try discriminate; [now left |].
    destruct (prop props "username") as [| | ? | ? | u | ? | ? ? | ? ? | ? ? | ? | ?] eqn:Hu;
      simpl; try discriminate;
      try solve [repeat match goal with
                        | |- context [if ?c then _ else _] => destruct c
                        end; discriminate].
    destruct (String.eqb_spec u ""); simpl; [discriminate |].
    destruct (prop props "password") as [| | ? | ? | p | ? | ? ? | ? ? | ? ? | ? | ?] eqn:Hp;
      simpl; try discriminate;
      try solve [repeat match goal with
                        | |- context [if ?c then _ else _] => destruct c
                        end; discriminate].
    destruct (String.eqb_spec p ""); simpl; [discriminate |].
    intros _. right. exists props, u, p. auto.
  - intros [-> | (c & u & p & -> & Hu & Hune & Hp & Hpne)]; [reflexivity |].
    simpl. rewrite Hu, Hp. simpl.
    destruct (String.eqb_spec u ""); [contradiction |].
    destruct (String.eqb_spec p ""); [contradiction |]. reflexivity.
Qed.

(** The six inserts of [validateProps], spelled out. *)
Lemma validateProps_result (args args' : gmap string JsValue) :
  validateProps args = Return args' ->
  args' = with_defaults args
  /\ validateCredentials (prop args "credentials") = Return tt
  /\ exists o, options_of args' = Some o.
Proof.
  intros Hv. split; [| split].
  - revert Hv. unfold validateProps, throw_if.
    repeat match goal with
           | |- context [if ?c then Throw _ else _] => destruct c; [discriminate |]
           end.
    destruct (validateCredentials _); simpl; [| discriminate].
    repeat match goal with
           | |- context [if ?c then Throw _ else _] => destruct c; [discriminate |]
           end.
    intros [= <-]. unfold with_defaults.
    now repeat (rewrite ?prop_insert_eq; rewrite ?prop_insert_ne by discriminate).
  - revert Hv. unfold validateProps, throw_if.
    repeat match goal with
           | |- context [if ?c then Throw _ else _] => destruct c; [discriminate |]
           end.
    repeat (rewrite ?prop_insert_ne by discriminate).
    destruct (validateCredentials _) as [[] |]; simpl; [reflexivity | discriminate].
  - eapply validateProps_typed; eassumption.
Qed.

Lemma options_of_fields (props : gmap string JsValue) (o : OplogOptions) :
  options_of props = Some o ->
  prop props "oplogURL" = JsString (oplogURL o)
  /\ prop props "getLastTimestamp" = JsFunction (getLastTimestamp o)
  /\ prop props "database" = JsString (database o)
  /\ prop props "collection" = JsString (collection o)
  /\ prop props "credentials" = credentials o
  /\ prop props "retries" = JsNumber (retries o)
  /\ prop props "log" = JsFunction (log o)
  /\ prop props "timestampTimeout" = JsNumber (timestampTimeout o).
Proof.
  unfold options_of.
  destruct (prop props "oplogURL"); try discriminate.
  destruct (prop props "getLastTimestamp"); try discriminate.
  destruct (prop props "database"); try discriminate.
  destruct (prop props "collection"); try discriminate.
  destruct (prop props "retries"); try discriminate.
  destruct (prop props "log"); try discriminate.
  destruct (prop props "timestampTimeout"); try discriminate.
  intros [= <-]. simpl. repeat split; reflexivity.
Qed.

Lemma with_defaults_credentials (args : gmap string JsValue) :
  prop (with_defaults args) "credentials" = prop args "credentials".
Proof.
  unfold with_defaults. now repeat (rewrite prop_insert_ne by discriminate).
Qed.

Lemma validateArgs_returns (args cfg : JsValue) :
  validateArgs args = Return cfg ->
  exists props props',
    (args = JsObject props
     \/ exists url, args = JsString url /\ props = {[ "oplogURL" := args ]})
    /\ validateProps props = Return props' /\ cfg = JsObject props'.
Proof.
  unfold validateArgs, throw_if.
  destruct args; simpl; try discriminate.
  - destruct (validateProps _) as [props' |] eqn:Hv; simpl; [| discriminate].
    intros [= <-]. eexists _, props'. split; [right; eauto |]. split; [exact Hv | reflexivity].
  - destruct (validateProps props) as [props' |] eqn:Hv; simpl; [| discriminate].
    intros [= <-]. exists props, props'. auto.
Qed.

(** What a successful validation establishes: the result is an options
    object in which [oplogURL], [database] and [collection] are strings,
    [getLastTimestamp] and [log] are functions, [retries] and
    [timestampTimeout] are numbers, and [credentials] is absent or an
    object with a non-empty string [username] and a non-empty string
    [password]. *)
Theorem validateArgs_postcondition (args cfg : JsValue) :
  validateArgs args = Return cfg ->
  exists (props : gmap string JsValue) (o : OplogOptions),
    cfg = JsObject props
    /\ options_of props = Some o
    /\ props !! "oplogURL" = Some (JsString (oplogURL o))
    /\ props !! "database" = Some (JsString (database o))
    /\ props !! "collection" = Some (JsString (collection o))
    /\ props !! "getLastTimestamp" = Some (JsFunction (getLastTimestamp o))
    /\ props !! "log" = Some (JsFunction (log o))
    /\ props !! "retries" = Some (JsNumber (retries o))
    /\ props !! "timestampTimeout" = Some (JsNumber (timestampTimeout o))
    /\ well_formed_credentials (credentials o).
Proof.
  intros Hv. destruct (validateArgs_returns _ _ Hv) as (p & props & _ & Hp & ->).
  destruct (validateProps_result _ _ Hp) as (Hd & Hc & o & Ho).
  destruct (options_of_fields _ _ Ho) as (H1 & H2 & H3 & H4 & H5 & H6 & H7 & H8).
  exists props, o. split; [reflexivity |]. split; [exact Ho |].
  repeat split; try (apply prop_is; [assumption | discriminate]).
  rewrite <- H5, Hd, with_defaults_credentials.
  now apply validateCredentials_accepts.
Qed.

Lemma validateArgs_postcondition_witness :
  exists (props : gmap string JsValue) (o : OplogOptions),
    options_of props = Some o /\ well_formed_credentials (credentials o).
Proof.
  destruct (validateArgs (JsObject {[ "oplogURL" := JsString "test";
                                      "credentials" := some_credentials ]}))
    as [cfg | exn] eqn:Hv; [| vm_compute in Hv; discriminate Hv].
  destruct (validateArgs_postcondition _ _ Hv)
    as (props & o & _ & Ho & _ & _ & _ & _ & _ & _ & _ & Hc).
  exists props, o. split; [exact Ho | exact Hc].
Defined.

Lemma with_defaults_keeps (args : gmap string JsValue) (k : string) (v : JsValue) :
  args !! k = Some v -> v <> JsUndefined -> with_defaults args !! k = Some v.
Proof.
  intros Hk Hv.
  assert (Hp : prop args k = v) by (unfold prop; now rewrite Hk).
  assert (Hstep : forall (m' : gmap string JsValue) k0 d,
             m' !! k = Some v ->
             <[k0 := or_default (prop args k0) d]> m' !! k = Some v).
  { intros m' k0 d Hm. destruct (decide (k0 = k)) as [-> | Hne].
    - rewrite lookup_insert_eq, Hp. now rewrite or_default_defined.
    - now rewrite lookup_insert_ne. }
  unfold with_defaults. now repeat apply Hstep.
Qed.

(** Validation only fills in what is missing: every property the caller
    supplied with a defined value is in the result unchanged, and a
    property that is none of the six with a default is left as it was. *)
Theorem validateArgs_keeps_supplied (props cfg : gmap string JsValue) :
  validateArgs (JsObject props) = Return (JsObject cfg) ->
  (forall k v, props !! k = Some v -> v <> JsUndefined -> cfg !! k = Some v)
  /\ (forall k,
         k <> "getLastTimestamp" -> k <> "database" -> k <> "collection" ->
         k <> "retries" -> k <> "log" -> k <> "timestampTimeout" ->
         cfg !! k = props !! k).
Proof.
  rewrite validateArgs_object.
  destruct (validateProps props) as [props' |] eqn:Hp; simpl; [| discriminate].
  intros [= <-]. destruct (validateProps_result _ _ Hp) as (-> & _ & _). split.
  - intros k v. apply with_defaults_keeps.
  - intros k H1 H2 H3 H4 H5 H6. unfold with_defaults.
    now rewrite !lookup_insert_ne by congruence.
Qed.

Lemma validateArgs_keeps_supplied_witness :
  exists cfg : gmap string JsValue,
    cfg !! "database" = Some (JsString "consumers")
    /\ cfg !! "extra" = Some (JsBoolean true).
Proof.
  destruct (validateArgs (JsObject {[ "oplogURL" := JsString "test";
                                      "database" := JsString "consumers";
                                      "extra" := JsBoolean true ]}))
    as [[| | | | | | | | | | cfg] | exn] eqn:Hv;
    try (vm_compute in Hv; discriminate Hv).
  destruct (validateArgs_keeps_supplied _ cfg Hv) as [Hk _].
  exists cfg. split; apply Hk; (vm_compute; reflexivity) || discriminate.
Defined.

Lemma insert_default_id (m : gmap string JsValue) (k : string) (v d : JsValue) :
  prop m k = v -> v <> JsUndefined ->
  <[k := or_default (prop m k) d]> m = m.
Proof.
  intros Hp Hv. rewrite Hp, or_default_defined by exact Hv.
  apply insert_id. now apply prop_is.
Qed.

Lemma validateProps_fixed (props : gmap string JsValue) (o : OplogOptions) :
  options_of props = Some o ->
  validateCredentials (prop props "credentials") = Return tt ->
  validateProps props = Return props.
Proof.
  intros Ho Hc.
  destruct (options_of_fields _ _ Ho) as (H1 & H2 & H3 & H4 & H5 & H6 & H7 & H8).
  unfold validateProps. cbv zeta.
  rewrite (insert_default_id props "getLastTimestamp" _ _ H2) by discriminate.
  rewrite (insert_default_id props "database" _ _ H3) by discriminate.
  rewrite (insert_default_id props "collection" _ _ H4) by discriminate.
  rewrite (insert_default_id props "retries" _ _ H6) by discriminate.
  rewrite (insert_default_id props "log" _ _ H7) by discriminate.
  rewrite (insert_default_id props "timestampTimeout" _ _ H8) by discriminate.
  rewrite H1, H2, H3, H4, H6, H7, H8, Hc. reflexivity.
Qed.

(** Validation is idempotent: a validated configuration validates again,
    to itself. *)
Theorem validateArgs_idempotent (args cfg : JsValue) :
  validateArgs args = Return cfg -> validateArgs cfg = Return cfg.
Proof.
  intros Hv. destruct (validateArgs_returns _ _ Hv) as (p & props & _ & Hp & ->).
  destruct (validateProps_result _ _ Hp) as (Hd & Hc & o & Ho).
  rewrite validateArgs_object, (validateProps_fixed props o Ho); [reflexivity |].
  now rewrite Hd, with_defaults_credentials.
Qed.

Lemma validateArgs_idempotent_witness :
  exists cfg, validateArgs (JsString "test") = Return cfg
              /\ validateArgs cfg = Return cfg.
Proof.
  destruct (validateArgs (JsString "test")) as [cfg | exn] eqn:Hv;
    [| vm_compute in Hv; discriminate Hv].
  exists cfg. split; [reflexivity | exact (validateArgs_idempotent _ _ Hv)].
Defined.

(** ** Routing, beyond the accepted event *)

Lemma specialised_signals (oplogEvent : JsValue) :
  length (specialised oplogEvent) <= 1
  /\ forall s, In s (specialised oplogEvent) ->
       (fst s = "insert" \/ fst s = "delete" \/ fst s = "update")
       /\ snd s = oplogEvent.
Proof.
  unfold specialised. destruct (member oplogEvent "op");
    try (split; [simpl; lia | contradiction]).
  destruct (String.eqb s "i"); [split; [simpl; lia | intros ? [<- | []]; auto] |].
  destruct (String.eqb s "d"); [split; [simpl; lia | intros ? [<- | []]; auto] |].
  destruct (String.eqb s "u"); [split; [simpl; lia | intros ? [<- | []]; auto] |].
  split; [simpl; lia | contradiction].
Qed.

Lemma routed_signals (args : OplogOptions) (oplogEvent : JsValue)
    (signals : list Signal) :
  routeEvent args oplogEvent = Some (Return signals) ->
  signals = [] \/ signals = ("op", oplogEvent) :: specialised oplogEvent.
Proof.
  unfold routeEvent.
  destruct (get_prop oplogEvent "ns") as [ns |]; [| discriminate].
  destruct (string_match ns (namespace_pattern args)) as [[[] |] |];
    try discriminate; intros [= <-]; auto.
Qed.

Lemma routed_signal_names (args : OplogOptions) (oplogEvent : JsValue)
    (signals : list Signal) :
  routeEvent args oplogEvent = Some (Return signals) ->
  length signals <= 2
  /\ forall s, In s signals -> routed_signal (fst s) /\ snd s = oplogEvent.
Proof.
  intros Hr. destruct (specialised_signals oplogEvent) as [Hl Hs].
  destruct (routed_signals _ _ _ Hr) as [-> | ->].
  - split; [simpl; lia | contradiction].
  - split; [simpl; lia |]. unfold routed_signal.
    intros s [<- | Hin]; [split; [now left | reflexivity] |].
    destruct (Hs s Hin) as [Hn Hp]. split; [now right | exact Hp].
Qed.





Section FilterFacts.

Local Open Scope list_scope.

(** A match consumes a prefix of the rest of the subject. *)
Lemma Matches_suffix (r : Regex) (i : nat) (s : list ascii) (j : nat)
    (t : list ascii) :
  Matches r i s j t -> exists consumed, s = consumed ++ t.
Proof.
  induction 1;
    try (exists []; reflexivity);
    try (eexists [_]; reflexivity);
    try assumption.
  - destruct IHMatches1 as [c1 ->], IHMatches2 as [c2 ->].
    exists (c1 ++ c2). now rewrite app_assoc.
  - destruct IHMatches1 as [c1 ->], IHMatches2 as [c2 ->].
    exists (c1 ++ c2). now rewrite app_assoc.
Qed.

(** The default pattern finds a match exactly in the subjects with a dot. *)
Lemma search_default_pattern (s : list ascii) :
  search default_pattern s = true <-> In "."%char s.
Proof.
  rewrite search_spec. unfold default_pattern. split.
  - intros (i & j & t & _ & Hm).
    inversion Hm as [| | | | | | r1 r2 i0 s0 j0 t0 k0 u0 Hstar Hrest | | | |]; subst.
    inversion Hrest as [| | | | | | r1 r2 i1 s1 j1 t1 k1 u1 Hdot _ | | | |]; subst.
    inversion Hdot; subst.
    destruct (Matches_suffix _ _ _ _ _ Hstar) as [consumed Hs].
    assert (Hin : In "."%char (skipn i s)).
    { rewrite Hs. apply in_or_app. right. now left. }
    rewrite <- (firstn_skipn i s). apply in_or_app. now right.
  - intros Hin. apply in_split in Hin. destruct Hin as (pre & post & ->).
    exists (length pre), (S (length pre)), post. split.
    + rewrite length_app. simpl. lia.
    + rewrite skipn_app, skipn_all, Nat.sub_diag. simpl.
      eapply M_Seq; [apply M_Star0 |].
      eapply M_Seq; [apply M_Chr |].
      eapply M_Seq; [apply M_Star0 | apply M_Empty].
Qed.

End FilterFacts.

(** With the default filter an event is routed exactly when its namespace
    has a dot in it; a namespace without one, such as the empty namespace
    of a no-op entry, is dropped. *)
Theorem default_filter_needs_a_dot (args : OplogOptions) (oplogEvent : JsValue)
    (ns : string) :
  database args = ".*" ->
  collection args = ".*" ->
  member oplogEvent "ns" = JsString ns ->
  (has_dot ns ->
   routeEvent args oplogEvent
   = Some (Return (("op", oplogEvent) :: specialised oplogEvent)))
  /\ (~ has_dot ns -> routeEvent args oplogEvent = Some (Return [])).
Proof.
  intros Hd Hc Hns.
  assert (Hp : compile (namespace_pattern args) = Pattern default_pattern).
  { unfold namespace_pattern. rewrite Hd, Hc. vm_compute. reflexivity. }
  rewrite (routeEvent_decision args oplogEvent ns default_pattern Hns Hp).
  unfold has_dot. split; intros H.
  - apply search_default_pattern in H. now rewrite H.
  - destruct (search default_pattern (list_ascii_of_string ns)) eqn:Hs;
      [| reflexivity].
    apply search_default_pattern in Hs. contradiction.
Qed.

Lemma default_filter_needs_a_dot_witness :
  routeEvent (filter_options ".*" ".*") (oplogDocument "" "n") = Some (Return []).
Proof.
  destruct (default_filter_needs_a_dot (filter_options ".*" ".*")
              (oplogDocument "" "n") "" eq_refl eq_refl) as [_ H].
  - vm_compute. reflexivity.
  - apply H. intros [].
Defined.

Section AnchoredFilter.

Local Open Scope list_scope.

Lemma parse_alternative_bol (n : nat) (rest : list ascii) :
  parse_alternative (S n) ("^"%char :: rest)
  = match parse_alternative n rest with
    | Ok r rest' => Ok (Seq Bol r) rest'
    | Bad => Bad
    | Beyond => Beyond
    end.
Proof. now rewrite parse_alternative_cons. Qed.

Lemma parse_alternative_eol_end (n : nat) :
  parse_alternative (S (S n)) ["$"%char] = Ok (Seq Eol Empty) [].
Proof. now rewrite parse_alternative_cons. Qed.

(** The pattern built from "^d" and "c$", [d] and [c] literal. *)
Lemma parse_anchored_namespace (d c : list ascii) (n : nat) :
  literal d -> literal c ->
  length d + length c + 6 <= n ->
  parse_disjunction n ("^"%char :: d ++ "\"%char :: "."%char :: c ++ ["$"%char])
  = Ok (Seq Bol (sequence (d ++ "."%char :: c) (Seq Eol Empty))) [].
Proof.
  intros Hd Hc Hn.
  destruct n as [| n]; [lia |].
  change (parse_disjunction (S n) ?s) with
    (match parse_alternative n s with
     | Ok r1 (c :: rest) =>
         if Ascii.eqb c "|" then
           match parse_disjunction n rest with
           | Ok r2 rest' => Ok (Alt r1 r2) rest'
           | Bad => Bad
           | Beyond => Beyond
           end
         else Ok r1 (c :: rest)
     | other => other
     end).
  replace n with (S (length d + S (S (length c + S (S (n - length d - length c - 5))))))
    by lia.
  set (k := n - length d - length c - 5).
  assert (Hq : unquantified (c ++ ["$"%char])).
  { apply literal_unquantified; [exact Hc | reflexivity]. }
  rewrite parse_alternative_bol.
  rewrite parse_alternative_literal; [| exact Hd | reflexivity].
  rewrite parse_alternative_escaped_dot by exact Hq.
  replace (S (length c + S (S k))) with (length c + S (S (S k))) by lia.
  rewrite parse_alternative_literal; [| exact Hc | reflexivity].
  rewrite parse_alternative_eol_end. cbn [prepend].
  change ("."%char :: c) with (["."%char] ++ c).
  now rewrite !sequence_app.
Qed.

(** An anchored sequence of characters matches the whole subject only. *)
Lemma search_anchored_sequence (l s : list ascii) :
  search (Seq Bol (sequence l (Seq Eol Empty))) s = true <-> s = l.
Proof.
  rewrite search_anywhere. unfold match_at. split.
  - intros (i & _ & Hm). cbn [m] in Hm.
    apply andb_true_iff in Hm. destruct Hm as [Hi Hm].
    apply Nat.eqb_eq in Hi. subst i.
    apply m_sequence in Hm. destruct Hm as (rest & Hs & Hm).
    change (skipn 0 s) with s in Hs. subst s.
    cbn [m] in Hm. destruct rest; [now rewrite app_nil_r | discriminate].
  - intros ->. exists 0. split; [lia |]. cbn [m skipn Nat.eqb andb].
    apply m_sequence. exists []. split; [now rewrite app_nil_r | reflexivity].
Qed.

End AnchoredFilter.

(** Anchoring the two options turns the filter into an equality test: with
    database "^d" and collection "c$", [d] and [c] free of syntax
    characters, exactly the namespace "d.c" is accepted. *)
Theorem anchored_filter_is_equality (args : OplogOptions) (d c ns : string) :
  literal_string d ->
  literal_string c ->
  database args = "^" ++ d ->
  collection args = c ++ "$" ->
  namespace_matches args ns <-> ns = d ++ "." ++ c.
Proof.
  intros Hd Hc Hdb Hcoll.
  unfold namespace_matches, string_match, namespace_pattern, compile.
  rewrite Hdb, Hcoll, !list_ascii_of_string_app.
  change (list_ascii_of_string "^") with ["^"%char].
  change (list_ascii_of_string "\.") with ["\"%char; "."%char].
  change (list_ascii_of_string "$") with ["$"%char].
  cbn [app].
  rewrite parse_anchored_namespace; [| exact Hd | exact Hc |].
  2:{ unfold fuel. repeat (cbn [length]; rewrite ?length_app). lia. }
  split.
  - intros [= Hs]. apply search_anchored_sequence in Hs.
    apply list_ascii_of_string_inj.
    now rewrite Hs, !list_ascii_of_string_app.
  - intros ->. replace (search _ _) with true; [reflexivity |].
    symmetry. apply search_anchored_sequence.
    now rewrite !list_ascii_of_string_app.
Qed.

Lemma anchored_filter_is_equality_witness :
  namespace_matches (filter_options "^a" "b$") "a.b"
  /\ ~ namespace_matches (filter_options "^a" "b$") "xa.bz".
Proof.
  assert (Ha : literal_string "a") by (repeat constructor).
  assert (Hb : literal_string "b") by (repeat constructor).
  pose proof (anchored_filter_is_equality (filter_options "^a" "b$") "a" "b")
    as H.
  split.
  - apply (H "a.b" Ha Hb eq_refl eq_refl). reflexivity.
  - intros Hm. apply (H "xa.bz" Ha Hb eq_refl eq_refl) in Hm. discriminate Hm.
Defined.

(** ** The tailing stage, beyond the order of the signals *)

(** An event whose [ns] is missing, or is neither a string nor an object,
    makes [routeEvent] throw a [TypeError], whatever the filter is. *)
Theorem routeEvent_without_namespace (args : OplogOptions)
    (oplogEvent : gmap string JsValue) :
  (forall s, prop oplogEvent "ns" <> JsString s) ->
  (forall o, prop oplogEvent "ns" <> JsObject o) ->
  exists fault,
    routeEvent args (JsObject oplogEvent)
    = Some (Throw (JsNativeError TypeError fault)).
Proof.
  intros Hs Ho. unfold routeEvent. simpl.
  destruct (prop oplogEvent "ns") eqn:Hns; simpl; eauto.
  - now destruct (Hs s).
  - now destruct (Ho props).
Qed.

Lemma routeEvent_without_namespace_witness :
  exists fault,
    routeEvent (filter_options ".*" ".*") (JsObject {[ "op" := JsString "i" ]})
    = Some (Throw (JsNativeError TypeError fault)).
Proof.
  apply routeEvent_without_namespace; intros ?; vm_compute; discriminate.
Defined.

(** The stage composes: when no handler threw on a first stretch of the
    stream, the effects of the stream are those of the first stretch
    followed by those of the rest. *)
Theorem tailing_app (args : OplogOptions) (xs ys : list StreamEvent)
    (effects : list Effect) :
  tailing args xs = Some effects ->
  no_exception effects ->
  tailing args (xs ++ ys)%list
  = option_map (fun rest => (effects ++ rest)%list) (tailing args ys).
Proof.
  revert effects. induction xs as [| [doc |] xs IH]; intros effects Ht Hn.
  - injection Ht as <-. simpl. now destruct (tailing args ys).
  - simpl in *. destruct (routeEvent args doc) as [[signals | exn] |];
      try discriminate.
    + destruct (tailing args xs) as [effects' |]; [| discriminate].
      injection Ht as <-. rewrite (IH effects' eq_refl).
      * destruct (tailing args ys); simpl; [| reflexivity].
        now rewrite app_assoc.
      * intros exn Hin. apply (Hn exn). apply in_or_app. now right.
    + injection Ht as <-. destruct (Hn exn). now left.
  - simpl in *. destruct (tailing args xs) as [effects' |]; [| discriminate].
    injection Ht as <-. rewrite (IH effects' eq_refl).
    + now destruct (tailing args ys).
    + intros exn Hin. apply (Hn exn). now do 2 right.
Qed.

Lemma tailing_app_witness :
  tailing (filter_options ".*" ".*")
    ([Data (oplogDocument "database.collection" "i")]
     ++ [Data (oplogDocument "database.collection" "d"); End])%list
  = option_map
      (fun rest => ([Emit "op" (oplogDocument "database.collection" "i");
                     Emit "insert" (oplogDocument "database.collection" "i")]
                    ++ rest)%list)
      (tailing (filter_options ".*" ".*")
         [Data (oplogDocument "database.collection" "d"); End]).
Proof.
  apply tailing_app.
  - vm_compute. reflexivity.
  - intros exn [H | [H | []]]; discriminate H.
Defined.

(** While documents arrive the stage only routes: every effect is a
    signal [op], [insert], [delete] or [update] carrying one of the
    documents, or the exception that left a handler; there are at most two
    effects per document, and no [error] signal. *)
Theorem tailing_data_effects (args : OplogOptions) (docs : list JsValue)
    (effects : list Effect) :
  tailing args (map Data docs) = Some effects ->
  Forall (data_effect docs) effects
  /\ length effects <= 2 * length docs
  /\ (forall payload, ~ In (Emit "error" payload) effects).
Proof.
  intros Ht.
  assert (H : Forall (data_effect docs) effects /\ length effects <= 2 * length docs).
  { revert effects Ht. induction docs as [| doc docs IH]; intros effects Ht.
    - injection Ht as <-. split; [constructor | simpl; lia].
    - simpl in Ht. destruct (routeEvent args doc) as [[signals | exn] |] eqn:Hr;
        try discriminate.
      + destruct (tailing args (map Data docs)) as [effects' |]; [| discriminate].
        injection Ht as <-. destruct (IH effects' eq_refl) as [Hf Hl].
        destruct (routed_signal_names _ _ _ Hr) as (Hlen & Hs).
        split.
        * apply Forall_app. split.
          -- apply List.Forall_forall. intros eff Hin. apply in_map_iff in Hin.
             destruct Hin as (s & <- & Hin). destruct (Hs s Hin) as [Hname Hp].
             left. exists (fst s), (snd s). split; [reflexivity |].
             split; [exact Hname | rewrite Hp; now left].
          -- eapply List.Forall_impl; [| exact Hf].
             intros eff [(name & d & -> & Hn & Hin) | (exn & ->)].
             ++ left. exists name, d. split; [reflexivity |].
                split; [exact Hn | now right].
             ++ right. eauto.
        * rewrite length_app, length_map. simpl. lia.
      + injection Ht as <-. split.
        * constructor; [right; eauto | constructor].
        * simpl. lia. }
  destruct H as [Hf Hl]. split; [exact Hf |]. split; [exact Hl |].
  intros payload Hin. rewrite List.Forall_forall in Hf.
  destruct (Hf _ Hin) as [(name & d & [= <- _] & Hn & _) | (exn & Hx)];
    [| discriminate Hx].
  destruct Hn as [Hn | [Hn | [Hn | Hn]]]; discriminate Hn.
Qed.

Lemma tailing_data_effects_witness :
  exists effects,
    tailing (filter_options "consumers" "records") (map Data three_documents)
    = Some effects
    /\ length effects <= 2 * length three_documents.
Proof.
  destruct (tailing (filter_options "consumers" "records") (map Data three_documents))
    as [effects |] eqn:Ht; [| vm_compute in Ht; discriminate Ht].
  exists effects. split; [reflexivity |].
  exact (proj1 (proj2 (tailing_data_effects _ _ _ Ht))).
Defined.

(** ** Connecting, beyond the options *)




(** Credentials that passed validation are always sent: the client gets
    [auth] with the validated [username] and [password], both non-empty
    strings, as [user] and [password]. *)
Theorem validated_credentials_are_sent (credentials : JsValue) :
  validateCredentials credentials = Return tt ->
  credentials <> JsUndefined ->
  exists u p : string,
    u <> "" /\ p <> ""
    /\ member credentials "username" = JsString u
    /\ member credentials "password" = JsString p
    /\ mongoOptions credentials
       = JsObject {[ "auth" := JsObject {[ "user" := JsString u;
                                            "password" := JsString p ]};
                     "authSource" := JsString "adming" ]}.
Proof.
  intros Hv Hd. apply validateCredentials_accepts in Hv.
  destruct Hv as [-> | (c & u & p & -> & Hu & Hune & Hp & Hpne)]; [contradiction |].
  exists u, p. unfold mongoOptions. simpl. now rewrite Hu, Hp.
Qed.

Lemma validated_credentials_are_sent_witness :
  exists u p : string,
    member some_credentials "username" = JsString u
    /\ member some_credentials "password" = JsString p.
Proof.
  destruct (validated_credentials_are_sent some_credentials)
    as (u & p & _ & _ & Hu & Hp & _).
  - vm_compute. reflexivity.
  - discriminate.
  - exists u, p. split; [exact Hu | exact Hp].
Defined.

(** ** The constructor, beyond the two error paths *)

Lemma error_signals_app (xs ys : list Effect) :
  error_signals (xs ++ ys)%list = (error_signals xs ++ error_signals ys)%list.
Proof. unfold error_signals. apply List.filter_app. Qed.

Lemma find_calls_app (xs ys : list Effect) :
  find_calls (xs ++ ys)%list = (find_calls xs ++ find_calls ys)%list.
Proof. unfold find_calls. apply List.filter_app. Qed.

Lemma error_signals_routed (args : OplogOptions) (doc : JsValue)
    (signals : list Signal) :
  routeEvent args doc = Some (Return signals) ->
  error_signals (map emit signals) = [] /\ find_calls (map emit signals) = [].
Proof.
  intros Hr. destruct (routed_signal_names _ _ _ Hr) as (_ & Hs).
  assert (Hne : forall s, In s signals -> fst s <> "error").
  { intros s Hin Herr. destruct (Hs s Hin) as [Hn _].
    destruct Hn as [Hn | [Hn | [Hn | Hn]]]; rewrite Hn in Herr; discriminate. }
  clear Hr Hs. induction signals as [| s signals IH]; [split; reflexivity |].
  destruct IH as [IH1 IH2]; [intros s' Hin; apply Hne; now right |].
  split; [| exact IH2]. simpl.
  destruct (String.eqb_spec (fst s) "error") as [He | _]; [| exact IH1].
  destruct (Hne s (or_introl eq_refl) He).
Qed.

(** The stage never opens a cursor, and emits an [error] signal only at
    the end of the stream. *)
Lemma tailing_errors (args : OplogOptions) (stream : list StreamEvent)
    (effects : list Effect) :
  ends_at_most_once stream ->
  tailing args stream = Some effects ->
  length (error_signals effects) <= 1 /\ find_calls effects = [].
Proof.
  intros [docs Hs]. revert effects.
  assert (Hend : forall ending effects,
             ending = [] \/ ending = [End] ->
             tailing args (map Data docs ++ ending)%list = Some effects ->
             length (error_signals effects) <= 1 /\ find_calls effects = []).
  { clear Hs. intros ending. induction docs as [| doc docs IH]; intros effects He Ht.
    - destruct He as [-> | ->]; injection Ht as <-; simpl; split; (lia || reflexivity).
    - simpl in Ht. destruct (routeEvent args doc) as [[signals | exn] |] eqn:Hr;
        try discriminate.
      + destruct (tailing args (map Data docs ++ ending)%list) as [effects' |];
          [| discriminate].
        injection Ht as <-. destruct (IH effects' He eq_refl) as [H1 H2].
        destruct (error_signals_routed _ _ _ Hr) as [H3 H4].
        now rewrite error_signals_app, find_calls_app, H3, H4, H2.
      + injection Ht as <-. simpl. split; (lia || reflexivity). }
  intros effects Ht. destruct Hs as [-> | ->].
  - apply (Hend [] effects); [now left | now rewrite app_nil_r].
  - apply (Hend [End] effects); [now right | exact Ht].
Qed.

(** A run whose stream ends at most once emits at most one [error]
    signal. *)
Theorem at_most_one_error (a cfg : JsValue) (w : Collaborators)
    (effects : list Effect) :
  validateArgs a = Return cfg ->
  ends_at_most_once (cursor w) ->
  OplogEmitter a w = Some (Return effects) ->
  length (error_signals effects) <= 1.
Proof.
  intros Hv Hs.
  destruct (validateArgs_typed _ _ Hv) as (props & _ & -> & _).
  destruct (OplogEmitter_pipeline a props w Hv) as (args & _ & ->).
  unfold pipeline, on_timestamp, on_rejected.
  destruct (connection w) as [oplog | errors |].
  - destruct (checkpoint w) as [lastTimestamp | errors |].
    + destruct lastTimestamp; try (intros [= <-]; simpl; lia).
      destruct (tailing args (cursor w)) as [effects' |] eqn:Ht; [| discriminate].
      intros [= <-]. destruct (tailing_errors _ _ _ Hs Ht) as [H _].
      exact H.
    + intros [= <-]. simpl. lia.
    + intros [= <-]. simpl. lia.
  - intros [= <-]. simpl. lia.
  - intros [= <-]. simpl. lia.
Qed.

Lemma at_most_one_error_witness :
  exists effects,
    OplogEmitter (JsString "test") closing_cursor = Some (Return effects)
    /\ length (error_signals effects) <= 1.
Proof.
  destruct (validateArgs (JsString "test")) as [cfg | exn] eqn:Hv;
    [| vm_compute in Hv; discriminate Hv].
  destruct (OplogEmitter (JsString "test") closing_cursor)
    as [[effects | exn] |] eqn:Hr; try (vm_compute in Hr; discriminate Hr).
  exists effects. split; [reflexivity |].
  apply (at_most_one_error (JsString "test") cfg closing_cursor effects Hv);
    [| exact Hr].
  exists [oplogDocument "database.collection" "i"]. now right.
Defined.

Lemma tailing_no_find (args : OplogOptions) (stream : list StreamEvent)
    (effects : list Effect) :
  tailing args stream = Some effects -> find_calls effects = [].
Proof.
  revert effects. induction stream as [| [doc |] stream IH]; intros effects Ht.
  - now injection Ht as <-.
  - simpl in Ht. destruct (routeEvent args doc) as [[signals | exn] |] eqn:Hr;
      try discriminate.
    + destruct (tailing args stream) as [effects' |]; [| discriminate].
      injection Ht as <-. destruct (error_signals_routed _ _ _ Hr) as [_ H].
      now rewrite find_calls_app, H, (IH effects' eq_refl).
    + now injection Ht as <-.
  - simpl in Ht. destruct (tailing args stream) as [effects' |]; [| discriminate].
    injection Ht as <-. simpl. now apply IH.
Qed.

Lemma pipeline_opens_cursor (args : OplogOptions) (w : Collaborators)
    (effects : list Effect) :
  pipeline args w = Some effects ->
  (forall oplog low high,
      connection w = Fulfilled oplog ->
      checkpoint w = Fulfilled (JsTimestamp low high) ->
      exists opening rest,
        effects
        = Log (JsString "Connected to mongodb local collection")
          :: Log (JsString opening)
          :: Find oplog
               (JsObject {[ "ts" := JsObject {[ "$gt" := JsTimestamp low high ]} ]})
               cursor_options
          :: rest
        /\ find_calls rest = [])
  /\ ((forall oplog low high,
          ~ (connection w = Fulfilled oplog
             /\ checkpoint w = Fulfilled (JsTimestamp low high))) ->
      find_calls effects = []).
Proof.
  unfold pipeline, on_timestamp, on_rejected.
  destruct (connection w) as [oplog | errors |];
    try (intros [= <-]; split; [discriminate | reflexivity]).
  destruct (checkpoint w) as [lastTimestamp | errors |];
    try (intros [= <-]; split; [discriminate | reflexivity]).
  destruct lastTimestamp;
    try (intros [= <-]; split; [discriminate | reflexivity]).
  destruct (tailing args (cursor w)) as [effects' |] eqn:Ht; [| discriminate].
  intros [= <-]. pose proof (tailing_no_find _ _ _ Ht) as Hn. split.
  - intros o l h [= <-] [= <- <-]. eexists _, effects'. split; [reflexivity | exact Hn].
  - intros H. destruct (H oplog low high). auto.
Qed.

Lemma OplogEmitter_effects (a cfg : JsValue) (w : Collaborators)
    (effects : list Effect) :
  validateArgs a = Return cfg ->
  OplogEmitter a w = Some (Return effects) ->
  exists args, pipeline args w = Some effects.
Proof.
  intros Hv Hr.
  destruct (validateArgs_typed _ _ Hv) as (props & _ & -> & _).
  destruct (OplogEmitter_pipeline a props w Hv) as (args & _ & He).
  rewrite He in Hr. exists args.
  destruct (pipeline args w); [now injection Hr as -> | discriminate].
Qed.

(** A run opens the cursor at most once: exactly once when the connection
    succeeded and the checkpoint is a [Timestamp], with the query
    [{ts: {$gt: checkpoint}}] and the tailable options, after the two log
    messages; in every other run, never. *)
Theorem cursor_opening (a cfg : JsValue) (w : Collaborators)
    (effects : list Effect) :
  validateArgs a = Return cfg ->
  OplogEmitter a w = Some (Return effects) ->
  (forall oplog low high,
      connection w = Fulfilled oplog ->
      checkpoint w = Fulfilled (JsTimestamp low high) ->
      exists opening rest,
        effects
        = Log (JsString "Connected to mongodb local collection")
          :: Log (JsString opening)
          :: Find oplog
               (JsObject {[ "ts" := JsObject {[ "$gt" := JsTimestamp low high ]} ]})
               (JsObject {[ "tailable" := JsBoolean true;
                            "awaitdata" := JsBoolean true;
                            "oplogReplay" := JsBoolean true;
                            "numberOfRetries" := JsNumber (-1)%float ]})
          :: rest
        /\ find_calls rest = [])
  /\ ((forall oplog low high,
          ~ (connection w = Fulfilled oplog
             /\ checkpoint w = Fulfilled (JsTimestamp low high))) ->
      find_calls effects = []).
Proof.
  intros Hv Hr. destruct (OplogEmitter_effects _ _ _ _ Hv Hr) as [args Hp].
  destruct (pipeline_opens_cursor args w effects Hp) as [Hopen Hnot].
  split; [| exact Hnot].
  intros oplog low high Hc Ht.
  destruct (Hopen oplog low high Hc Ht) as (opening & rest & He & Hn).
  exists opening, rest. split; [exact He | exact Hn].
Qed.

Lemma cursor_opening_witness :
  exists effects,
    OplogEmitter (JsString "test") closing_cursor = Some (Return effects)
    /\ length (find_calls effects) = 1.
Proof.
  destruct (validateArgs (JsString "test")) as [cfg | exn] eqn:Hv;
    [| vm_compute in Hv; discriminate Hv].
  destruct (OplogEmitter (JsString "test") closing_cursor)
    as [[effects | exn] |] eqn:Hr; try (vm_compute in Hr; discriminate Hr).
  exists effects. split; [reflexivity |].
  destruct (cursor_opening (JsString "test") cfg closing_cursor effects Hv Hr)
    as [H _].
  destruct (H (JsString "collection") 0%Z 1700000000%Z eq_refl eq_refl)
    as (opening & rest & -> & Hn).
  change (S (length (find_calls rest)) = 1). now rewrite Hn.
Defined.

(** When the checkpoint poller rejects with the string 'master timeout',
    the run ends with one [error] signal, carrying "getLastTimestamp did
    not resolve before the timeout", and opens no cursor. *)
Theorem checkpoint_timeout_is_an_error (a cfg oplog : JsValue)
    (w : Collaborators) :
  validateArgs a = Return cfg ->
  connection w = Fulfilled oplog ->
  checkpoint w = Rejected (JsString "master timeout") ->
  OplogEmitter a w
  = Some (Return
      [ Log (JsString "Connected to mongodb local collection");
        Emit "error"
          (JsError Error "getLastTimestamp did not resolve before the timeout") ]).
Proof.
  intros Hv Hc Ht.
  destruct (validateArgs_typed _ _ Hv) as (props & _ & -> & _).
  destruct (OplogEmitter_pipeline a props w Hv) as (args & _ & ->).
  now rewrite (master_timeout_is_an_error args oplog w Hc Ht).
Qed.

Lemma checkpoint_timeout_is_an_error_witness :
  OplogEmitter (JsString "test")
    {| connection := Fulfilled (JsString "collection");
       checkpoint := Rejected (JsString "master timeout");
       cursor := [] |}
  = Some (Return
      [ Log (JsString "Connected to mongodb local collection");
        Emit "error"
          (JsError Error "getLastTimestamp did not resolve before the timeout") ]).
Proof.
  destruct (validateArgs (JsString "test")) as [cfg | exn] eqn:Hv;
    [| vm_compute in Hv; discriminate Hv].
  apply (checkpoint_timeout_is_an_error (JsString "test") cfg (JsString "collection"));
    [exact Hv | reflexivity | reflexivity].
Defined.




(** With the default provider the checkpoint is the current time in whole
    seconds, with increment 0, and the constructor accepts it: the cursor
    is opened for the entries after [Timestamp(0, seconds)]. *)
Theorem default_provider_is_accepted (a cfg oplog : JsValue) (w : Collaborators)
    (now : Z) (effects : list Effect) :
  validateArgs a = Return cfg ->
  connection w = Fulfilled oplog ->
  checkpoint w = default_getLastTimestamp now ->
  OplogEmitter a w = Some (Return effects) ->
  exists (seconds : Z) opening rest,
    (1000 * seconds <= now < 1000 * seconds + 1000)%Z
    /\ effects
       = Log (JsString "Connected to mongodb local collection")
         :: Log (JsString opening)
         :: Find oplog
              (JsObject {[ "ts" := JsObject {[ "$gt" := JsTimestamp 0 seconds ]} ]})
              cursor_options
         :: rest.
Proof.
  intros Hv Hc Ht Hr. destruct (OplogEmitter_effects _ _ _ _ Hv Hr) as [args Hp].
  destruct (pipeline_opens_cursor args w effects Hp) as [H _].
  destruct (H oplog 0%Z (now / 1000)%Z Hc Ht) as (opening & rest & -> & _).
  exists (now / 1000)%Z, opening, rest. split; [| reflexivity].
  pose proof (Z.div_mod now 1000). pose proof (Z.mod_pos_bound now 1000). lia.
Qed.

Lemma default_provider_is_accepted_witness :
  exists effects (seconds : Z) opening rest,
    OplogEmitter (JsString "test") (default_provider_run 1700000000999)
    = Some (Return effects)
    /\ (1000 * seconds <= 1700000000999 < 1000 * seconds + 1000)%Z
    /\ effects
       = Log (JsString "Connected to mongodb local collection")
         :: Log (JsString opening)
         :: Find (JsString "collection")
              (JsObject {[ "ts" := JsObject {[ "$gt" := JsTimestamp 0 seconds ]} ]})
              cursor_options
         :: rest.
Proof.
  destruct (validateArgs (JsString "test")) as [cfg | exn] eqn:Hv;
    [| vm_compute in Hv; discriminate Hv].
  destruct (OplogEmitter (JsString "test") (default_provider_run 1700000000999))
    as [[effects | exn] |] eqn:Hr; try (vm_compute in Hr; discriminate Hr).
  destruct (default_provider_is_accepted (JsString "test") cfg (JsString "collection")
              (default_provider_run 1700000000999) 1700000000999 effects
              Hv eq_refl eq_refl Hr)
    as (seconds & opening & rest & Hs & He).
  exists effects, seconds, opening, rest. split; [reflexivity |].
  split; [exact Hs | exact He].
Defined.

(** ** The documents of the test suite *)

Lemma set_type_op (type : JsValue) (instance : gmap string JsValue) :
  prop instance "op" = JsString "i" ->
  specialised (JsObject (set_type type instance))
  = [(signal_of_type type, JsObject (set_type type instance))].
Proof.
  intros Hop. unfold specialised, signal_of_type. cbn [member].
  destruct type; try (unfold set_type; rewrite Hop; reflexivity).
  unfold set_type.
  destruct (String.eqb_spec s "insert") as [-> | _].
  { now rewrite prop_insert_eq. }
  destruct (String.eqb_spec s "update") as [-> | _].
  { cbv zeta. rewrite prop_insert_ne by discriminate. now rewrite prop_insert_eq. }
  destruct (String.eqb_spec s "delete") as [-> | _].
  { now rewrite prop_insert_eq. }
  now rewrite Hop.
Qed.

Lemma set_type_ns (type : JsValue) (instance : gmap string JsValue) :
  prop (set_type type instance) "ns" = prop instance "ns".
Proof.
  destruct type; try reflexivity. unfold set_type.
  destruct (String.eqb s "insert"); [now rewrite prop_insert_ne by discriminate |].
  destruct (String.eqb s "update").
  { cbv zeta. now rewrite !prop_insert_ne by discriminate. }
  destruct (String.eqb s "delete"); [now rewrite prop_insert_ne by discriminate |].
  reflexivity.
Qed.

Lemma createOplogDocument_returns (now : Z) (type options doc : JsValue) :
  createOplogDocument now type options = Return doc ->
  exists instance,
    doc = JsObject (set_type type instance)
    /\ prop instance "op" = JsString "i"
    /\ prop instance "ts" = JsTimestamp 0 (now / 1000)
    /\ truthy (prop instance "o") = true
    /\ prop instance "ns"
       = (if truthy (member options "namespace") then member options "namespace"
          else JsString "database.collection").
Proof.
  unfold createOplogDocument. cbv zeta.
  assert (Hm : forall k, get_prop (if is_undefined options then JsObject ∅ else options) k
                         = Throw (JsNativeError TypeError (ReadPropertyOf k true))
                         \/ get_prop (if is_undefined options then JsObject ∅ else options) k
                            = Return (member options k)).
  { intros k. destruct options; simpl; auto. }
  destruct (Hm "operation") as [-> | ->]; [discriminate |].
  destruct (Hm "namespace") as [-> | ->]; [discriminate |].
  cbn [bind]. intros [= <-]. eexists. split; [reflexivity |].
  destruct (truthy (member options "operation")) eqn:Ho,
           (truthy (member options "namespace")) eqn:Hn;
    repeat (rewrite ?prop_insert_eq; rewrite ?prop_insert_ne by discriminate);
    repeat split; try reflexivity; try assumption.
Qed.

(** A document made for a type is routed to the signal of that type: when
    the filter accepts its namespace, [routeEvent] emits [op] and then
    [insert], [update] or [delete] as the type says, whatever operation and
    namespace the options supply; a type that is none of the three gives
    an insert. *)
Theorem createOplogDocument_round_trip (now : Z) (type options doc : JsValue)
    (args : OplogOptions) (ns : string) :
  createOplogDocument now type options = Return doc ->
  member doc "ns" = JsString ns ->
  namespace_matches args ns ->
  routeEvent args doc = Some (Return [("op", doc); (signal_of_type type, doc)]).
Proof.
  intros Hc Hns Hm.
  destruct (createOplogDocument_returns _ _ _ _ Hc) as (instance & -> & Hop & _).
  unfold routeEvent. rewrite (get_prop_member _ _ _ Hns).
  unfold namespace_matches in Hm. rewrite Hm.
  now rewrite (set_type_op type instance Hop).
Qed.

Lemma createOplogDocument_round_trip_witness :
  exists doc,
    createOplogDocument 1700000000000 (JsString "update") JsUndefined = Return doc
    /\ routeEvent (filter_options ".*" ".*") doc
       = Some (Return [("op", doc); ("update", doc)]).
Proof.
  destruct (createOplogDocument 1700000000000 (JsString "update") JsUndefined)
    as [doc | exn] eqn:Hc; [| vm_compute in Hc; discriminate Hc].
  exists doc. split; [reflexivity |].
  apply (createOplogDocument_round_trip 1700000000000 (JsString "update")
           JsUndefined doc (filter_options ".*" ".*") "database.collection" Hc);
    injection Hc as <-; vm_compute; reflexivity.
Defined.

(** What [createOplogDocument] builds.  It fails only on the options
    [null].  The namespace is [options.namespace] when that is truthy and
    "database.collection" otherwise, also for the empty string; the
    timestamp is the current second; an update carries its operation as
    [o2] too, the fallback of the source never being used; no other
    document has [o2]. *)
Theorem createOplogDocument_document (now : Z) (type options : JsValue) :
  options <> JsNull ->
  exists doc : gmap string JsValue,
    createOplogDocument now type options = Return (JsObject doc)
    /\ doc !! "ts" = Some (JsTimestamp 0 (now / 1000))
    /\ doc !! "ns"
       = Some (if truthy (member options "namespace") then member options "namespace"
               else JsString "database.collection")
    /\ (type = JsString "update" -> is_Some (doc !! "o") /\ doc !! "o2" = doc !! "o")
    /\ (type <> JsString "update" -> doc !! "o2" = None).
Proof.
  intros Hnull. unfold createOplogDocument. cbv zeta.
  assert (Hm : forall k, get_prop (if is_undefined options then JsObject ∅ else options) k
                         = Return (member options k)).
  { intros k. destruct options; simpl; try reflexivity. contradiction. }
  rewrite !Hm. cbn [bind]. eexists. split; [reflexivity |].
  set (instance :=
         if truthy (member options "namespace")
         then <["ns" := member options "namespace"]>
                (if truthy (member options "operation")
                 then <["o" := member options "operation"]>
                        (<["ts" := JsTimestamp 0 (now / 1000)]> template)
                 else <["ts" := JsTimestamp 0 (now / 1000)]> template)
         else (if truthy (member options "operation")
               then <["o" := member options "operation"]>
                      (<["ts" := JsTimestamp 0 (now / 1000)]> template)
               else <["ts" := JsTimestamp 0 (now / 1000)]> template)).
  assert (Hts : instance !! "ts" = Some (JsTimestamp 0 (now / 1000))).
  { unfold instance.
    destruct (truthy (member options "namespace")), (truthy (member options "operation"));
      now repeat (rewrite ?lookup_insert_eq; rewrite ?lookup_insert_ne by discriminate). }
  assert (Hns : instance !! "ns"
                = Some (if truthy (member options "namespace")
                        then member options "namespace"
                        else JsString "database.collection")).
  { unfold instance.
    destruct (truthy (member options "namespace")), (truthy (member options "operation"));
      now repeat (rewrite ?lookup_insert_eq; rewrite ?lookup_insert_ne by discriminate). }
  assert (Ho : exists o, instance !! "o" = Some o /\ truthy o = true).
  { unfold instance.
    destruct (truthy (member options "namespace")),
             (truthy (member options "operation")) eqn:Hop;
      repeat (rewrite ?lookup_insert_eq; rewrite ?lookup_insert_ne by discriminate);
      eauto. }
  assert (Ho2 : instance !! "o2" = None).
  { unfold instance.
    destruct (truthy (member options "namespace")), (truthy (member options "operation"));
      now repeat (rewrite ?lookup_insert_eq; rewrite ?lookup_insert_ne by discriminate). }
  clearbody instance. destruct Ho as (o & Ho & Hot).
  assert (Hkeep : forall k, k <> "op" -> k <> "o2" ->
                    set_type type instance !! k = instance !! k).
  { intros k H1 H2. destruct type; try reflexivity. unfold set_type.
    destruct (String.eqb s "insert"); [now rewrite lookup_insert_ne |].
    destruct (String.eqb s "update");
      [cbv zeta; now rewrite !lookup_insert_ne by congruence |].
    destruct (String.eqb s "delete"); [now rewrite lookup_insert_ne |].
    reflexivity. }
  rewrite !Hkeep by discriminate. split; [exact Hts |]. split; [exact Hns |]. split.
  - intros ->. rewrite Ho. split; [eauto |].
    unfold set_type. cbn [String.eqb Ascii.eqb Bool.eqb]. cbv zeta.
    rewrite lookup_insert_eq. rewrite prop_insert_ne by discriminate.
    unfold prop. rewrite Ho. cbn [default id]. now rewrite Hot.
  - intros Ht. destruct type; try exact Ho2. unfold set_type.
    destruct (String.eqb_spec s "insert"); [now rewrite lookup_insert_ne |].
    destruct (String.eqb_spec s "update"); [subst; contradiction |].
    destruct (String.eqb_spec s "delete"); [now rewrite lookup_insert_ne |].
    exact Ho2.
Qed.

Lemma createOplogDocument_document_witness :
  exists doc : gmap string JsValue,
    createOplogDocument 1700000000000 (JsString "delete")
      (JsObject {[ "namespace" := JsString "" ]})
    = Return (JsObject doc)
    /\ doc !! "ns" = Some (JsString "database.collection").
Proof.
  destruct (createOplogDocument_document 1700000000000 (JsString "delete")
              (JsObject {[ "namespace" := JsString "" ]}))
    as (doc & Hd & _ & Hns & _); [discriminate |].
  exists doc. split; [exact Hd | exact Hns].
Defined.
